(** * pico2-swd-riscv: target lifecycle, resource tracker and driver contracts

    A shallow embedding of [src/swd.c] with the structures of
    [src/internal.h] and [include/pico2-swd-riscv/types.h], followed by a
    model of the Debug Module driver operations (halt, register access,
    trace) whose implementation file is not part of the sources at hand. *)

From Stdlib Require Import ZArith Lia.
From stdpp Require Import gmap list strings pretty.

Open Scope Z_scope.

(** ** types.h *)

(** [swd_error_t]: the enumeration, in declaration order. *)
Inductive swd_error_t : Set :=
  | SWD_OK
  | SWD_ERROR_TIMEOUT
  | SWD_ERROR_FAULT
  | SWD_ERROR_PROTOCOL
  | SWD_ERROR_PARITY
  | SWD_ERROR_WAIT
  | SWD_ERROR_NOT_CONNECTED
  | SWD_ERROR_NOT_HALTED
  | SWD_ERROR_ALREADY_HALTED
  | SWD_ERROR_INVALID_STATE
  | SWD_ERROR_NO_MEMORY
  | SWD_ERROR_INVALID_CONFIG
  | SWD_ERROR_RESOURCE_BUSY
  | SWD_ERROR_INVALID_PARAM
  | SWD_ERROR_NOT_INITIALIZED
  | SWD_ERROR_ABSTRACT_CMD
  | SWD_ERROR_BUS
  | SWD_ERROR_ALIGNMENT
  | SWD_ERROR_VERIFY.

#[global] Instance swd_error_eq_dec : EqDecision swd_error_t.
Proof. solve_decision. Defined.

(** The integer value the C enumeration gives each constant. *)
Definition error_code (e : swd_error_t) : Z :=
  match e with
  | SWD_OK => 0
  | SWD_ERROR_TIMEOUT => 1
  | SWD_ERROR_FAULT => 2
  | SWD_ERROR_PROTOCOL => 3
  | SWD_ERROR_PARITY => 4
  | SWD_ERROR_WAIT => 5
  | SWD_ERROR_NOT_CONNECTED => 6
  | SWD_ERROR_NOT_HALTED => 7
  | SWD_ERROR_ALREADY_HALTED => 8
  | SWD_ERROR_INVALID_STATE => 9
  | SWD_ERROR_NO_MEMORY => 10
  | SWD_ERROR_INVALID_CONFIG => 11
  | SWD_ERROR_RESOURCE_BUSY => 12
  | SWD_ERROR_INVALID_PARAM => 13
  | SWD_ERROR_NOT_INITIALIZED => 14
  | SWD_ERROR_ABSTRACT_CMD => 15
  | SWD_ERROR_BUS => 16
  | SWD_ERROR_ALIGNMENT => 17
  | SWD_ERROR_VERIFY => 18
  end.

(** [swd_result_t]: the carrier of a fallible 32-bit read. *)
Record swd_result_t : Set := mk_result { error : swd_error_t; value : Z }.

Definition SWD_PIO_AUTO : Z := 0xFF.
Definition SWD_SM_AUTO : Z := 0xFF.

Definition SWD_ACK_OK : Z := 0x1.
Definition SWD_ACK_WAIT : Z := 0x2.
Definition SWD_ACK_FAULT : Z := 0x4.
Definition SWD_ACK_ERROR : Z := 0x7.

(** ** swd.c: ACK decoding *)

(** [swd_ack_to_error]: the [switch] on the [uint8_t] ack, first matching
    [case] label wins, [default] last. *)
Definition swd_ack_to_error (ack : Z) : swd_error_t :=
  if ack =? SWD_ACK_OK then SWD_OK
  else if ack =? SWD_ACK_WAIT then SWD_ERROR_WAIT
  else if ack =? SWD_ACK_FAULT then SWD_ERROR_FAULT
  else if ack =? SWD_ACK_ERROR then SWD_ERROR_PROTOCOL
  else SWD_ERROR_PROTOCOL.

(** ** internal.h: the session structures *)

(** A pointer to a heap-allocated [swd_target_t]; [None] is [NULL]. *)
Abbreviation addr := positive.
Abbreviation target_ptr := (option positive).

Record dap_state_t : Set := mk_dap {
  current_apsel : Z;
  current_bank : Z;
  ctrlsel : bool;
  select_cache : Z;
  powered : bool;
  retry_count : Z
}.

Record hart_state_t : Set := mk_hart {
  halt_state_known : bool;
  halted : bool;
  cache_valid : bool;
  cached_pc : Z;
  cached_gprs : list Z;
  cache_timestamp : Z
}.

Definition RP2350_NUM_HARTS : nat := 2.

Record rp2350_state_t : Set := mk_rp2350 {
  initialized : bool;
  sba_initialized : bool;
  harts : list hart_state_t;
  cache_enabled : bool
}.

Record pio_state_t : Set := mk_pio {
  pio : Z;
  sm : Z;
  pio_offset : Z;
  pin_swclk : Z;
  pin_swdio : Z;
  freq_khz : Z;
  pio_initialized : bool
}.

Record swd_target : Set := mk_target {
  t_pio : pio_state_t;
  connected : bool;
  idcode : Z;
  dap : dap_state_t;
  rp2350 : rp2350_state_t;
  last_error : swd_error_t;
  last_ack : Z;
  error_detail : string;
  resource_registered : bool
}.

(** [resource_tracker_t]: two arrays of four owner pointers and a count. *)
Record resource_tracker_t : Set := mk_tracker {
  pio0_sm_owners : list target_ptr;
  pio1_sm_owners : list target_ptr;
  active_count : Z
}.

(** swd.h: [swd_config_t]. *)
Record swd_config_t : Set := mk_config {
  cfg_pio : Z;
  cfg_sm : Z;
  cfg_pin_swclk : Z;
  cfg_pin_swdio : Z;
  cfg_freq_khz : Z;
  cfg_enable_caching : bool;
  cfg_retry_count : Z
}.

(** The memory [calloc(1, sizeof(swd_target_t))] hands out: every field zero. *)
Definition hart_zero : hart_state_t :=
  mk_hart false false false 0 (replicate 32 0) 0.

Definition target_zero : swd_target :=
  mk_target (mk_pio 0 0 0 0 0 0 false) false 0
            (mk_dap 0 0 false 0 false 0)
            (mk_rp2350 false false (replicate RP2350_NUM_HARTS hart_zero) false)
            SWD_OK 0 EmptyString false.

(** Field assignments [target->f = v]. *)
Definition set_t_pio (f : pio_state_t -> pio_state_t) (t : swd_target) : swd_target :=
  mk_target (f (t_pio t)) (connected t) (idcode t) (dap t) (rp2350 t)
            (last_error t) (last_ack t) (error_detail t) (resource_registered t).
Definition set_connected (b : bool) (t : swd_target) : swd_target :=
  mk_target (t_pio t) b (idcode t) (dap t) (rp2350 t)
            (last_error t) (last_ack t) (error_detail t) (resource_registered t).
Definition set_dap (f : dap_state_t -> dap_state_t) (t : swd_target) : swd_target :=
  mk_target (t_pio t) (connected t) (idcode t) (f (dap t)) (rp2350 t)
            (last_error t) (last_ack t) (error_detail t) (resource_registered t).
Definition set_rp2350 (f : rp2350_state_t -> rp2350_state_t) (t : swd_target) : swd_target :=
  mk_target (t_pio t) (connected t) (idcode t) (dap t) (f (rp2350 t))
            (last_error t) (last_ack t) (error_detail t) (resource_registered t).
Definition set_last_error (e : swd_error_t) (t : swd_target) : swd_target :=
  mk_target (t_pio t) (connected t) (idcode t) (dap t) (rp2350 t)
            e (last_ack t) (error_detail t) (resource_registered t).
Definition set_error_detail (s : string) (t : swd_target) : swd_target :=
  mk_target (t_pio t) (connected t) (idcode t) (dap t) (rp2350 t)
            (last_error t) (last_ack t) s (resource_registered t).
Definition set_resource_registered (b : bool) (t : swd_target) : swd_target :=
  mk_target (t_pio t) (connected t) (idcode t) (dap t) (rp2350 t)
            (last_error t) (last_ack t) (error_detail t) b.

Definition set_pio (v : Z) (p : pio_state_t) : pio_state_t :=
  mk_pio v (sm p) (pio_offset p) (pin_swclk p) (pin_swdio p) (freq_khz p) (pio_initialized p).
Definition set_sm (v : Z) (p : pio_state_t) : pio_state_t :=
  mk_pio (pio p) v (pio_offset p) (pin_swclk p) (pin_swdio p) (freq_khz p) (pio_initialized p).
Definition set_pin_swclk (v : Z) (p : pio_state_t) : pio_state_t :=
  mk_pio (pio p) (sm p) (pio_offset p) v (pin_swdio p) (freq_khz p) (pio_initialized p).
Definition set_pin_swdio (v : Z) (p : pio_state_t) : pio_state_t :=
  mk_pio (pio p) (sm p) (pio_offset p) (pin_swclk p) v (freq_khz p) (pio_initialized p).
Definition set_freq_khz (v : Z) (p : pio_state_t) : pio_state_t :=
  mk_pio (pio p) (sm p) (pio_offset p) (pin_swclk p) (pin_swdio p) v (pio_initialized p).
Definition set_pio_initialized (b : bool) (p : pio_state_t) : pio_state_t :=
  mk_pio (pio p) (sm p) (pio_offset p) (pin_swclk p) (pin_swdio p) (freq_khz p) b.

Definition set_powered (b : bool) (d : dap_state_t) : dap_state_t :=
  mk_dap (current_apsel d) (current_bank d) (ctrlsel d) (select_cache d) b (retry_count d).
Definition set_retry_count (v : Z) (d : dap_state_t) : dap_state_t :=
  mk_dap (current_apsel d) (current_bank d) (ctrlsel d) (select_cache d) (powered d) v.
Definition set_current_apsel (v : Z) (d : dap_state_t) : dap_state_t :=
  mk_dap v (current_bank d) (ctrlsel d) (select_cache d) (powered d) (retry_count d).
Definition set_current_bank (v : Z) (d : dap_state_t) : dap_state_t :=
  mk_dap (current_apsel d) v (ctrlsel d) (select_cache d) (powered d) (retry_count d).

Definition set_cache_enabled (b : bool) (r : rp2350_state_t) : rp2350_state_t :=
  mk_rp2350 (initialized r) (sba_initialized r) (harts r) b.
Definition set_initialized (b : bool) (r : rp2350_state_t) : rp2350_state_t :=
  mk_rp2350 b (sba_initialized r) (harts r) (cache_enabled r).
Definition set_sba_initialized (b : bool) (r : rp2350_state_t) : rp2350_state_t :=
  mk_rp2350 (initialized r) b (harts r) (cache_enabled r).
Definition set_harts (f : list hart_state_t -> list hart_state_t) (r : rp2350_state_t)
  : rp2350_state_t :=
  mk_rp2350 (initialized r) (sba_initialized r) (f (harts r)) (cache_enabled r).

Definition set_halt_state_known (b : bool) (h : hart_state_t) : hart_state_t :=
  mk_hart b (halted h) (cache_valid h) (cached_pc h) (cached_gprs h) (cache_timestamp h).
Definition set_halted (b : bool) (h : hart_state_t) : hart_state_t :=
  mk_hart (halt_state_known h) b (cache_valid h) (cached_pc h) (cached_gprs h) (cache_timestamp h).
Definition set_cache_valid (b : bool) (h : hart_state_t) : hart_state_t :=
  mk_hart (halt_state_known h) (halted h) b (cached_pc h) (cached_gprs h) (cache_timestamp h).

(** ** The machine the lifecycle code runs on *)

(** What the lifecycle code does besides updating the heap and the tracker,
    in program order: a call of [swd_disconnect], the release of a slot by
    [release_pio_sm], a call of [free]. *)
Inductive event : Set :=
  | EvDisconnect (p : addr)
  | EvRelease (pio sm : Z)
  | EvFree (p : addr).

(** The heap of live [swd_target_t] objects, the global [g_resources] and the
    record of outgoing calls. *)
Record world : Type := mk_world {
  heap : gmap addr swd_target;
  g_resources : resource_tracker_t;
  calls : list event
}.

(** A computation either faults ([None]: an access through a pointer that is
    not live, or outside an array) or returns a value and the new world. *)
Definition M (A : Type) : Type := world -> option (A * world).

Definition ret {A} (a : A) : M A := fun w => Some (a, w).
Definition bind {A B} (m : M A) (k : A -> M B) : M B :=
  fun w => match m w with
           | Some (a, w') => k a w'
           | None => None
           end.
Definition fault {A} : M A := fun _ => None.

Declare Scope c_scope.
Delimit Scope c_scope with C.
Notation "'do' x <- m 'in' k" := (bind m (fun x => k))
  (at level 10, x name, m at level 99, k at level 200) : c_scope.
Notation "'exec' m 'in' k" := (bind m (fun _ => k))
  (at level 10, m at level 99, k at level 200) : c_scope.
Open Scope c_scope.

Definition load (p : addr) : M swd_target :=
  fun w => match heap w !! p with
           | Some t => Some (t, w)
           | None => None
           end.

Definition modify (p : addr) (f : swd_target -> swd_target) : M unit :=
  fun w => match heap w !! p with
           | Some t => Some (tt, mk_world (<[p := f t]> (heap w)) (g_resources w) (calls w))
           | None => None
           end.

Definition emit (e : event) : M unit :=
  fun w => Some (tt, mk_world (heap w) (g_resources w) (calls w ++ [e])).

Definition get_resources : M resource_tracker_t :=
  fun w => Some (g_resources w, w).

Definition put_resources (g : resource_tracker_t) : M unit :=
  fun w => Some (tt, mk_world (heap w) g (calls w)).

(** [calloc]: the allocator's answer [mem] is an input of the model, [None]
    for an exhausted heap. A block the allocator returns is never one that is
    still live, so such an answer is not a behaviour of the machine. *)
Definition calloc (mem : target_ptr) : M target_ptr :=
  fun w => match mem with
           | None => Some (None, w)
           | Some p =>
               match heap w !! p with
               | None => Some (Some p, mk_world (<[p := target_zero]> (heap w))
                                               (g_resources w) (calls w))
               | Some _ => None
               end
           end.

(** [free] of a live block. *)
Definition free (p : addr) : M unit :=
  fun w => match heap w !! p with
           | Some _ => Some (tt, mk_world (delete p (heap w)) (g_resources w)
                                         (calls w ++ [EvFree p]))
           | None => None
           end.

(** ** swd.c: the resource tracker *)

(** The two PIO blocks the tracker knows. [hardware/pio.h] belongs to the
    board SDK, not to this repository: [pio0] and [pio1] are the addresses of
    the two register blocks on the RP2350. The development uses only that
    they differ from each other and from [SWD_PIO_AUTO]. *)
Definition pio0 : Z := 0x50200000.
Definition pio1 : Z := 0x50300000.

(** The initialiser of [g_resources]. *)
Definition g_resources_init : resource_tracker_t :=
  mk_tracker [None; None; None; None] [None; None; None; None] 0.

Definition world_init : world := mk_world ∅ g_resources_init [].

(** Reading [owners[i]]; an index past the end of the array is a fault. *)
Definition owner_at (owners : list target_ptr) (i : nat) : M target_ptr :=
  match owners !! i with
  | Some o => ret o
  | None => fault
  end.

(** One of the two [for (uint i = 0; i < 4; i++)] scans of [allocate_pio_sm]:
    [n] iterations remain, the next index is [i]. *)
Fixpoint scan_free (owners : list target_ptr) (i n : nat) : M (option nat) :=
  match n with
  | O => ret None
  | S n' =>
      do o <- owner_at owners i in
      match o with
      | None => ret (Some i)
      | Some _ => scan_free owners (S i) n'
      end
  end.

(** [allocate_pio_sm]: the out-parameters [*pio] and [*sm] are written only on
    the [SWD_OK] path and are returned with the code. *)
Definition allocate_pio_sm : M (swd_error_t * option (Z * Z)) :=
  do g <- get_resources in
  do r0 <- scan_free (pio0_sm_owners g) 0 4 in
  match r0 with
  | Some i => ret (SWD_OK, Some (pio0, Z.of_nat i))
  | None =>
      do r1 <- scan_free (pio1_sm_owners g) 0 4 in
      match r1 with
      | Some i => ret (SWD_OK, Some (pio1, Z.of_nat i))
      | None => ret (SWD_ERROR_RESOURCE_BUSY, None)
      end
  end.

(** [uint] arithmetic on [active_count]. *)
Definition uint_max : Z := 2 ^ 32.
Definition uint_incr (n : Z) : Z := (n + 1) mod uint_max.
Definition uint_decr (n : Z) : Z := (n - 1) mod uint_max.

Definition set_pio0_owner (i : nat) (o : target_ptr) (g : resource_tracker_t)
  : resource_tracker_t :=
  mk_tracker (<[i := o]> (pio0_sm_owners g)) (pio1_sm_owners g) (active_count g).
Definition set_pio1_owner (i : nat) (o : target_ptr) (g : resource_tracker_t)
  : resource_tracker_t :=
  mk_tracker (pio0_sm_owners g) (<[i := o]> (pio1_sm_owners g)) (active_count g).
Definition set_active_count (n : Z) (g : resource_tracker_t) : resource_tracker_t :=
  mk_tracker (pio0_sm_owners g) (pio1_sm_owners g) n.

(** [release_pio_sm]. *)
Definition release_pio_sm (pio sm : Z) : M unit :=
  if 4 <=? sm then ret tt
  else
    exec emit (EvRelease pio sm) in
    do g <- get_resources in
    let g1 :=
      if pio =? pio0 then set_pio0_owner (Z.to_nat sm) None g
      else if pio =? pio1 then set_pio1_owner (Z.to_nat sm) None g
      else g in
    let g2 :=
      if 0 <? active_count g1 then set_active_count (uint_decr (active_count g1)) g1
      else g1 in
    put_resources g2.

(** [register_target]. *)
Definition register_target (target : target_ptr) (pio sm : Z) : M bool :=
  match target with
  | None => ret false
  | Some p =>
      if 4 <=? sm then ret false
      else
        do g <- get_resources in
        if pio =? pio0 then
          do o <- owner_at (pio0_sm_owners g) (Z.to_nat sm) in
          match o with
          | Some _ => ret false
          | None =>
              exec put_resources
                (set_active_count (uint_incr (active_count g))
                   (set_pio0_owner (Z.to_nat sm) (Some p) g)) in
              ret true
          end
        else if pio =? pio1 then
          do o <- owner_at (pio1_sm_owners g) (Z.to_nat sm) in
          match o with
          | Some _ => ret false
          | None =>
              exec put_resources
                (set_active_count (uint_incr (active_count g))
                   (set_pio1_owner (Z.to_nat sm) (Some p) g)) in
              ret true
          end
        else ret false
  end.

(** [unregister_target]. *)
Definition unregister_target (target : target_ptr) : M unit :=
  match target with
  | None => ret tt
  | Some p =>
      do t <- load p in
      if negb (resource_registered t) then ret tt
      else
        exec release_pio_sm (pio (t_pio t)) (sm (t_pio t)) in
        modify p (set_resource_registered false)
  end.

(** swd.h: [swd_resource_info_t] and [swd_get_resource_usage]. *)
Record swd_resource_info_t : Set := mk_info {
  pio0_sm_used : list bool;
  pio1_sm_used : list bool;
  active_targets : Z
}.

Definition swd_get_resource_usage : M swd_resource_info_t :=
  do g <- get_resources in
  ret (mk_info (map (fun o : target_ptr => bool_decide (o <> None)) (pio0_sm_owners g))
               (map (fun o : target_ptr => bool_decide (o <> None)) (pio1_sm_owners g))
               (active_count g)).

(** [swd_config_default]. *)
Definition swd_config_default : swd_config_t :=
  mk_config SWD_PIO_AUTO SWD_SM_AUTO 0 0 1000 true 5.

(** ** swd.c: error strings *)

(** [swd_error_string] over the [error_strings] table; every constant of the
    enumeration has an entry. *)
Definition swd_error_string (e : swd_error_t) : string :=
  match e with
  | SWD_OK => "Success"
  | SWD_ERROR_TIMEOUT => "Timeout"
  | SWD_ERROR_FAULT => "Target fault"
  | SWD_ERROR_PROTOCOL => "Protocol error"
  | SWD_ERROR_PARITY => "Parity error"
  | SWD_ERROR_WAIT => "Wait timeout"
  | SWD_ERROR_NOT_CONNECTED => "Not connected"
  | SWD_ERROR_NOT_HALTED => "Hart not halted"
  | SWD_ERROR_ALREADY_HALTED => "Hart already halted"
  | SWD_ERROR_INVALID_STATE => "Invalid state"
  | SWD_ERROR_NO_MEMORY => "Out of memory"
  | SWD_ERROR_INVALID_CONFIG => "Invalid configuration"
  | SWD_ERROR_RESOURCE_BUSY => "Resource busy"
  | SWD_ERROR_INVALID_PARAM => "Invalid parameter"
  | SWD_ERROR_NOT_INITIALIZED => "Not initialized"
  | SWD_ERROR_ABSTRACT_CMD => "Abstract command failed"
  | SWD_ERROR_BUS => "Bus error"
  | SWD_ERROR_ALIGNMENT => "Alignment error"
  | SWD_ERROR_VERIFY => "Verification failed"
  end.

(** ** swd.c: error context *)

(** What [vsnprintf] leaves in the 128-byte [error_detail]: at most 127
    characters of the expanded text. *)
Definition detail_text (s : string) : string := String.substring 0 127 s.

(** A [uint] printed with [%d]. *)
Definition as_int (n : Z) : Z := if n <? 2 ^ 31 then n else n - 2 ^ 32.

(** [swd_set_error]; [detail] is the format string with its arguments
    expanded, [None] for a null [detail]. The [SWD_WARN], [SWD_INFO] and
    [SWD_DEBUG] macros write to stdio only and are left out throughout. *)
Definition swd_set_error (target : target_ptr) (e : swd_error_t) (detail : option string)
  : M unit :=
  match target with
  | None => ret tt
  | Some p =>
      exec modify p (set_last_error e) in
      match detail with
      | Some d => modify p (set_error_detail (detail_text d))
      | None => modify p (set_error_detail EmptyString)
      end
  end.

(** [swd_get_last_error_detail]. *)
Definition swd_get_last_error_detail (target : target_ptr) : M string :=
  match target with
  | None => ret EmptyString
  | Some p => do t <- load p in ret (error_detail t)
  end.

(** ** swd.c: target lifecycle *)

(** Modelled from the spec: [swd_disconnect] is implemented in
    swd_protocol.c, which is not among the sources. Section 4.2 has
    "Disconnect. Clear CDBGPWRUPREQ/CSYSPWRUPREQ; send line reset; leave pins
    in input state", and section 3 gives a session the states
    [Disconnected | Connected(idcode)]: the call is recorded, the debug domains
    are powered down and the session is Disconnected afterwards. *)
Definition swd_disconnect (p : addr) : M swd_error_t :=
  exec emit (EvDisconnect p) in
  exec modify p (set_dap (set_powered false)) in
  exec modify p (set_connected false) in
  ret SWD_OK.

(** The per-hart initialisation loop of [swd_target_create]. *)
Definition init_hart (h : hart_state_t) : hart_state_t :=
  set_cache_valid false (set_halted false (set_halt_state_known false h)).

Definition init_harts (r : rp2350_state_t) : rp2350_state_t :=
  foldl (fun r i => set_harts (alter init_hart i) r) r (seq 0 RP2350_NUM_HARTS).

(** [swd_target_create] from "Register resource" to its end. *)
Definition create_register (cfg : swd_config_t) (p : addr) : M target_ptr :=
  do t <- load p in
  do ok <- register_target (Some p) (pio (t_pio t)) (sm (t_pio t)) in
  if negb ok then
    exec swd_set_error (Some p) SWD_ERROR_RESOURCE_BUSY
           (Some ("PIO" +:+ pretty (if pio (t_pio t) =? pio0 then 0 else 1)
                  +:+ " SM" +:+ pretty (as_int (sm (t_pio t))) +:+ " already in use")) in
    exec free p in
    ret None
  else
    exec modify p (set_resource_registered true) in
    exec modify p (set_dap (set_powered false)) in
    exec modify p (set_dap (set_retry_count (cfg_retry_count cfg))) in
    exec modify p (set_dap (set_current_apsel 0xFF)) in
    exec modify p (set_dap (set_current_bank 0xFF)) in
    exec modify p (set_rp2350 (set_cache_enabled (cfg_enable_caching cfg))) in
    exec modify p (set_rp2350 (set_initialized false)) in
    exec modify p (set_rp2350 (set_sba_initialized false)) in
    exec modify p (set_rp2350 init_harts) in
    ret (Some p).

(** [swd_target_create]; [mem] is what [calloc] answers. *)
Definition swd_target_create (config : option swd_config_t) (mem : target_ptr)
  : M target_ptr :=
  match config with
  | None => ret None
  | Some cfg =>
      do target <- calloc mem in
      match target with
      | None => ret None
      | Some p =>
          exec modify p (set_last_error SWD_OK) in
          exec modify p (set_connected false) in
          exec modify p (set_resource_registered false) in
          exec modify p (set_t_pio (set_pin_swclk (cfg_pin_swclk cfg))) in
          exec modify p (set_t_pio (set_pin_swdio (cfg_pin_swdio cfg))) in
          exec modify p (set_t_pio (set_freq_khz (cfg_freq_khz cfg))) in
          exec modify p (set_t_pio (set_pio_initialized false)) in
          if (cfg_pio cfg =? SWD_PIO_AUTO) || (cfg_sm cfg =? SWD_SM_AUTO) then
            do r <- allocate_pio_sm in
            if negb (bool_decide (r.1 = SWD_OK)) then
              exec swd_set_error (Some p) r.1 (Some "No free PIO/SM available") in
              exec free p in
              ret None
            else
              match r.2 with
              | Some (pio, sm) =>
                  exec modify p (set_t_pio (set_pio pio)) in
                  exec modify p (set_t_pio (set_sm sm)) in
                  create_register cfg p
              | None => fault
              end
          else
            exec modify p (set_t_pio (set_pio (cfg_pio cfg))) in
            exec modify p (set_t_pio (set_sm (cfg_sm cfg))) in
            create_register cfg p
      end
  end.

(** [swd_target_destroy]. *)
Definition swd_target_destroy (target : target_ptr) : M unit :=
  match target with
  | None => ret tt
  | Some p =>
      do t <- load p in
      exec (if connected t then do _ <- swd_disconnect p in ret tt else ret tt) in
      exec unregister_target (Some p) in
      free p
  end.

(** ** swd.c: connection status *)

(** [swd_is_connected]. *)
Definition swd_is_connected (target : target_ptr) : M bool :=
  match target with
  | None => ret false
  | Some p => do t <- load p in ret (connected t)
  end.

(** [swd_read_idcode]. *)
Definition swd_read_idcode (target : target_ptr) : M swd_result_t :=
  let result := mk_result SWD_ERROR_NOT_CONNECTED 0 in
  match target with
  | None => ret result
  | Some p =>
      do t <- load p in
      if negb (connected t) then
        exec swd_set_error (Some p) SWD_ERROR_NOT_CONNECTED (Some "Not connected") in
        ret result
      else
        ret (mk_result SWD_OK (idcode t))
  end.

(** [swd_get_frequency]. *)
Definition swd_get_frequency (target : target_ptr) : M Z :=
  match target with
  | None => ret 0
  | Some p => do t <- load p in ret (freq_khz (t_pio t))
  end.

(** * The Debug Module driver

    [rp2350.c], which implements halt, register access and trace, is not part
    of the sources; its operations are modelled from the specification, over
    the per-hart state of [internal.h] and an explicit target machine. *)

Module Rp2350.

(** Modelled from the spec: the ways a transaction on the SWD link can fail
    (section 7: Wait after retry exhaustion, Fault, Parity, Protocol, and a
    Timeout), as the missing transport layer reports them. *)
Inductive link_fault : Set :=
  | LinkTimeout | LinkFault | LinkProtocol | LinkParity | LinkWait.

Definition fault_error (f : link_fault) : swd_error_t :=
  match f with
  | LinkTimeout => SWD_ERROR_TIMEOUT
  | LinkFault => SWD_ERROR_FAULT
  | LinkProtocol => SWD_ERROR_PROTOCOL
  | LinkParity => SWD_ERROR_PARITY
  | LinkWait => SWD_ERROR_WAIT
  end.

(** Modelled from the spec: a DMI transaction (section 4.3, [dmi_read(addr)]
    and [dmi_write(addr, value)]) and the Debug Module registers of RISC-V
    Debug 0.13 that section 4.4 names. *)
Inductive dmi_op : Set :=
  | DmiRead (reg : Z)
  | DmiWrite (reg value : Z).

Definition DM_DATA0 : Z := 0x04.
Definition DM_DMCONTROL : Z := 0x10.
Definition DM_DMSTATUS : Z := 0x11.
Definition DM_ABSTRACTCS : Z := 0x16.
Definition DM_COMMAND : Z := 0x17.
Definition CSR_DCSR : Z := 0x7b0.

(** Modelled from the spec: one hart of the target as the Debug Module shows
    it (section 4.4: running or halted, a pending halt request, its PC and
    its 32 GPRs). [halt_latency] is the number of DMSTATUS polls that still
    report the hart running after a halt request or a step. *)
Record hart_hw : Set := mk_hart_hw {
  hw_halted : bool;
  hw_haltreq : bool;
  halt_latency : nat;
  hw_pc : Z;
  hw_gprs : list Z
}.

(** Modelled from the spec: a debug session with its target attached: the
    driver's session object, the two harts and the memory of the target, the
    link (with [Some (n, f)] the link carries [n] more transactions and then
    fails with [f]; with [None] it never fails), the transactions issued so
    far with their outcome, and the bound on every polling loop (section 5:
    "Each has a bounded retry/timeout"). *)
Record session : Type := mk_session {
  target : swd_target;
  hw : list hart_hw;
  memory : gmap Z Z;
  link : option (nat * link_fault);
  wire : list (dmi_op * option link_fault);
  poll_budget : nat
}.

Definition set_target (f : swd_target -> swd_target) (s : session) : session :=
  mk_session (f (target s)) (hw s) (memory s) (link s) (wire s) (poll_budget s).
Definition set_hw (f : list hart_hw -> list hart_hw) (s : session) : session :=
  mk_session (target s) (f (hw s)) (memory s) (link s) (wire s) (poll_budget s).
Definition set_memory (f : gmap Z Z -> gmap Z Z) (s : session) : session :=
  mk_session (target s) (hw s) (f (memory s)) (link s) (wire s) (poll_budget s).

(** A driver operation returns an error or a value, and the session as the
    operation left it. *)
Definition D (A : Type) : Type := session -> (swd_error_t + A) * session.

Definition dret {A} (a : A) : D A := fun s => (inr a, s).
Definition dthrow {A} (e : swd_error_t) : D A := fun s => (inl e, s).
Definition dbind {A B} (m : D A) (k : A -> D B) : D B :=
  fun s => match m s with
           | (inr a, s') => k a s'
           | (inl e, s') => (inl e, s')
           end.
Definition dget : D session := fun s => (inr s, s).
Definition dmodify (f : session -> session) : D unit := fun s => (inr tt, f s).

Declare Scope dm_scope.
Delimit Scope dm_scope with DM.
Notation "'let*' x := m 'in' k" := (dbind m (fun x => k))
  (at level 10, x name, m at level 99, k at level 200) : dm_scope.
Notation "'step*' m 'in' k" := (dbind m (fun _ => k))
  (at level 10, m at level 99, k at level 200) : dm_scope.
Open Scope dm_scope.

(** Modelled from the spec: one DMI transaction on the link. It is recorded
    with its outcome; a failed link stays failed. *)
Definition dmi (op : dmi_op) : D unit :=
  fun s =>
    match link s with
    | Some (O, f) =>
        (inl (fault_error f),
         mk_session (target s) (hw s) (memory s) (link s) (wire s ++ [(op, Some f)])
                    (poll_budget s))
    | Some (S n, f) =>
        (inr tt,
         mk_session (target s) (hw s) (memory s) (Some (n, f)) (wire s ++ [(op, None)])
                    (poll_budget s))
    | None =>
        (inr tt,
         mk_session (target s) (hw s) (memory s) None (wire s ++ [(op, None)])
                    (poll_budget s))
    end.

(** Modelled from the spec: the session's detail buffer is "overwritten on
    every non-OK result" (section 7). The specification does not fix the
    text; the tag's entry in the [error_strings] table of swd.c is used. *)
Definition report (e : swd_error_t) (s : session) : session :=
  if bool_decide (e = SWD_OK) then s
  else set_target (fun t => set_error_detail (detail_text (swd_error_string e))
                              (set_last_error e t)) s.

(** The two shapes of a public operation: an error code, or a
    [{error, value}] pair whose value is 0 unless the error is [SWD_OK]. *)
Definition as_error (m : D unit) (s : session) : swd_error_t * session :=
  match m s with
  | (inl e, s') => (e, report e s')
  | (inr _, s') => (SWD_OK, s')
  end.

Definition as_result (m : D Z) (s : session) : swd_result_t * session :=
  match m s with
  | (inl e, s') => (mk_result e 0, report e s')
  | (inr v, s') => (mk_result SWD_OK v, s')
  end.

(** Modelled from the spec: the target's side of a halt request and of a
    DMSTATUS poll (section 4.4.2: "write DMCONTROL with haltreq=1; poll
    DMSTATUS until allhalted"). *)
Definition set_hw_halted (b : bool) (x : hart_hw) : hart_hw :=
  mk_hart_hw b (hw_haltreq x) (halt_latency x) (hw_pc x) (hw_gprs x).
Definition set_hw_haltreq (b : bool) (x : hart_hw) : hart_hw :=
  mk_hart_hw (hw_halted x) b (halt_latency x) (hw_pc x) (hw_gprs x).
Definition set_halt_latency (n : nat) (x : hart_hw) : hart_hw :=
  mk_hart_hw (hw_halted x) (hw_haltreq x) n (hw_pc x) (hw_gprs x).
Definition set_hw_gprs (f : list Z -> list Z) (x : hart_hw) : hart_hw :=
  mk_hart_hw (hw_halted x) (hw_haltreq x) (halt_latency x) (hw_pc x) (f (hw_gprs x)).

Definition hw_tick (x : hart_hw) : hart_hw :=
  if hw_haltreq x && negb (hw_halted x) then
    match halt_latency x with
    | O => set_hw_halted true x
    | S k => set_halt_latency k x
    end
  else x.

Definition hart_is_halted (h : nat) (s : session) : bool :=
  match hw s !! h with
  | Some x => hw_halted x
  | None => false
  end.

(** DMCONTROL: haltreq is bit 31, resumereq bit 30, hartsel starts at bit 16,
    dmactive is bit 0. *)
Definition dmcontrol (h : nat) (haltreq resumereq : bool) : Z :=
  Z.lor (Z.lor (if haltreq then Z.shiftl 1 31 else 0)
               (if resumereq then Z.shiftl 1 30 else 0))
        (Z.lor (Z.shiftl (Z.of_nat h) 16) 1).

(** COMMAND for a register access (section 4.4.3:
    [{cmdtype, aarsize=32, transfer=1, write=0/1, regno}]). *)
Definition command_word (write : bool) (regno : Z) : Z :=
  Z.lor (Z.lor (Z.shiftl 2 20) (Z.shiftl 1 17))
        (Z.lor (if write then Z.shiftl 1 16 else 0) regno).

Definition set_drv_hart (h : nat) (f : hart_state_t -> hart_state_t) (s : session)
  : session :=
  set_target (set_rp2350 (set_harts (alter f h))) s.

(** Modelled from the spec: "poll DMSTATUS until allhalted for h", at most
    [n] polls. *)
Fixpoint poll_halted (h : nat) (n : nat) : D bool :=
  match n with
  | O => dret false
  | S n' =>
      step* dmi (DmiRead DM_DMSTATUS) in
      step* dmodify (set_hw (alter hw_tick h)) in
      let* s := dget in
      if hart_is_halted h s then dret true else poll_halted h n'
  end.

(** Modelled from the spec, section 4.4.2: "Halt(h). Select hart h; write
    DMCONTROL with haltreq=1; poll DMSTATUS until allhalted for h; clear
    haltreq. If already halted, return AlreadyHalted (non-fatal marker)", with
    the errors of the interface table (NotInitialized, Timeout,
    AlreadyHalted). A hart is already halted when the per-hart state of the
    session says so ([halt_state_known] and [halted]). *)
Definition halt_body (h : nat) : D unit :=
  let* s := dget in
  if negb (initialized (rp2350 (target s))) then dthrow SWD_ERROR_NOT_INITIALIZED
  else if negb (h <? RP2350_NUM_HARTS)%nat then dthrow SWD_ERROR_INVALID_PARAM
  else
    match harts (rp2350 (target s)) !! h with
    | None => dthrow SWD_ERROR_INVALID_STATE
    | Some hs =>
        if halt_state_known hs && halted hs then dthrow SWD_ERROR_ALREADY_HALTED
        else
          step* dmi (DmiWrite DM_DMCONTROL (dmcontrol h true false)) in
          step* dmodify (set_hw (alter (set_hw_haltreq true) h)) in
          let* ok := poll_halted h (poll_budget s) in
          if ok then
            step* dmi (DmiWrite DM_DMCONTROL (dmcontrol h false false)) in
            step* dmodify (set_hw (alter (set_hw_haltreq false) h)) in
            dmodify (set_drv_hart h (fun x => set_halted true (set_halt_state_known true x)))
          else dthrow SWD_ERROR_TIMEOUT
    end.

Definition rp2350_halt (h : nat) : session -> swd_error_t * session :=
  as_error (halt_body h).

(** Modelled from the spec, section 4.4.3: the abstract command driver.
    "write COMMAND register ...; Poll ABSTRACTCS.busy=0; if cmderr≠0, clear it
    (write-1-to-clear) and raise AbstractCmd(cmderr)". The target refuses a
    register access while the hart runs. *)
Definition abstract_cmd (h : nat) (write : bool) (regno : Z) : D unit :=
  step* dmi (DmiWrite DM_DMCONTROL (dmcontrol h false false)) in
  step* dmi (DmiWrite DM_COMMAND (command_word write regno)) in
  step* dmi (DmiRead DM_ABSTRACTCS) in
  let* s := dget in
  if hart_is_halted h s then dret tt
  else
    step* dmi (DmiWrite DM_ABSTRACTCS (Z.shiftl 7 8)) in
    dthrow SWD_ERROR_ABSTRACT_CMD.

Definition abstract_read_gpr (h : nat) (regno : Z) : D Z :=
  step* abstract_cmd h false (0x1000 + regno) in
  step* dmi (DmiRead DM_DATA0) in
  let* s := dget in
  dret (default 0 (x ← hw s !! h; hw_gprs x !! Z.to_nat regno)).

Definition abstract_write_gpr (h : nat) (regno v : Z) : D unit :=
  step* dmi (DmiWrite DM_DATA0 v) in
  step* abstract_cmd h true (0x1000 + regno) in
  dmodify (set_hw (alter (set_hw_gprs (<[Z.to_nat regno := v]>)) h)).

(** Modelled from the spec, section 4.4.7: "x0 is hard-wired zero: writes
    silently succeed, reads return 0 without a bus transaction"; the other
    registers go through an abstract command and need the hart halted
    (interface table: NotHalted, AbstractCmd). *)
Definition read_reg_body (h : nat) (regno : Z) : D Z :=
  let* s := dget in
  if negb (h <? RP2350_NUM_HARTS)%nat then dthrow SWD_ERROR_INVALID_PARAM
  else if 32 <=? regno then dthrow SWD_ERROR_INVALID_PARAM
  else if regno =? 0 then dret 0
  else
    match harts (rp2350 (target s)) !! h with
    | None => dthrow SWD_ERROR_INVALID_STATE
    | Some hs =>
        if negb (halted hs) then dthrow SWD_ERROR_NOT_HALTED
        else abstract_read_gpr h regno
    end.

Definition rp2350_read_reg (h : nat) (regno : Z) : session -> swd_result_t * session :=
  as_result (read_reg_body h regno).

(** Modelled from the spec, sections 4.4.7 and 9: a write to x0 succeeds
    silently; a write to another register mutates a GPR and so falsifies
    [cache_valid] for that hart. *)
Definition write_reg_body (h : nat) (regno v : Z) : D unit :=
  let* s := dget in
  if negb (h <? RP2350_NUM_HARTS)%nat then dthrow SWD_ERROR_INVALID_PARAM
  else if 32 <=? regno then dthrow SWD_ERROR_INVALID_PARAM
  else if regno =? 0 then dret tt
  else
    match harts (rp2350 (target s)) !! h with
    | None => dthrow SWD_ERROR_INVALID_STATE
    | Some hs =>
        if negb (halted hs) then dthrow SWD_ERROR_NOT_HALTED
        else
          step* abstract_write_gpr h regno v in
          dmodify (set_drv_hart h (set_cache_valid false))
    end.

Definition rp2350_write_reg (h : nat) (regno v : Z) : session -> swd_error_t * session :=
  as_error (write_reg_body h regno v).






Section Trace.

(** What retiring one instruction does to a hart and to memory: the
    processor's instruction semantics, which the driver does not define. *)
Variable retire : hart_hw -> gmap Z Z -> hart_hw * gmap Z Z.

(** The type of the caller's [user_data]. *)
Variable U : Type.

Definition hw_retire (h : nat) (s : session) : session :=
  match hw s !! h with
  | Some x =>
      let r := retire x (memory s) in
      mk_session (target s) (<[h := set_hw_haltreq true (set_hw_halted false r.1)]> (hw s))
                 r.2 (link s) (wire s) (poll_budget s)
  | None => s
  end.

(** Modelled from the spec, section 4.4.2: "Step(h). Require halted; set
    DCSR.step=1; resume; poll until allhalted; clear DCSR.step. PC advances by
    one instruction retired", and section 9: a step falsifies [cache_valid]. *)
Definition step_body (h : nat) : D unit :=
  let* s := dget in
  if negb (h <? RP2350_NUM_HARTS)%nat then dthrow SWD_ERROR_INVALID_PARAM
  else
    match harts (rp2350 (target s)) !! h with
    | None => dthrow SWD_ERROR_INVALID_STATE
    | Some hs =>
        if negb (halted hs) then dthrow SWD_ERROR_NOT_HALTED
        else
          step* dmi (DmiWrite DM_DATA0 (Z.shiftl 1 2)) in
          step* abstract_cmd h true CSR_DCSR in
          step* dmi (DmiWrite DM_DMCONTROL (dmcontrol h false true)) in
          step* dmodify (hw_retire h) in
          step* dmodify (set_drv_hart h (set_cache_valid false)) in
          let* ok := poll_halted h (poll_budget s) in
          if ok then
            step* dmodify (set_hw (alter (set_hw_haltreq false) h)) in
            step* dmi (DmiWrite DM_DATA0 0) in
            abstract_cmd h true CSR_DCSR
          else dthrow SWD_ERROR_TIMEOUT
    end.

Definition rp2350_step (h : nat) : session -> swd_error_t * session :=
  as_error (step_body h).




End Trace.

End Rp2350.

Import Rp2350.

(** * Specification vocabulary *)

(** ** The tracker *)

(** Both owner arrays have their four entries. *)
Definition tracker_wf (g : resource_tracker_t) : Prop :=
  length (pio0_sm_owners g) = 4%nat /\ length (pio1_sm_owners g) = 4%nat.

(** State machine [j] of a block is owned. *)
Definition owned (owners : list target_ptr) (j : nat) : Prop :=
  exists p, owners !! j = Some (Some p).

(** [i] is the lowest unowned state machine of a block. *)
Definition first_free (owners : list target_ptr) (i : nat) : Prop :=
  owners !! i = Some None /\ forall j, (j < i)%nat -> owned owners j.

Definition all_owned (owners : list target_ptr) : Prop :=
  forall j, (j < 4)%nat -> owned owners j.

(** The owner array of block [b]; no array for a [b] that is neither block. *)
Definition owners_of (g : resource_tracker_t) (b : Z) : list target_ptr :=
  if b =? pio0 then pio0_sm_owners g
  else if b =? pio1 then pio1_sm_owners g
  else [].

(** The session that owns slot [(b, i)], if any. *)
Definition slot_owner (g : resource_tracker_t) (b : Z) (i : nat) : target_ptr :=
  default None (owners_of g b !! i).

(** [(b, i)] is one of the 2x4 slots and is unowned. *)
Definition slot_free (g : resource_tracker_t) (b i : Z) : Prop :=
  (b = pio0 \/ b = pio1) /\ i < 4 /\ owners_of g b !! Z.to_nat i = Some None.

Definition with_owner (g : resource_tracker_t) (b : Z) (i : nat) (o : target_ptr)
  : resource_tracker_t :=
  if b =? pio0 then set_pio0_owner i o g
  else if b =? pio1 then set_pio1_owner i o g
  else g.

(** The tracker after [p] registered slot [(b, i)]. *)
Definition claimed (g : resource_tracker_t) (b i : Z) (p : addr) : resource_tracker_t :=
  set_active_count (uint_incr (active_count g)) (with_owner g b (Z.to_nat i) (Some p)).

(** The tracker after [release_pio_sm b i]. *)
Definition released (g : resource_tracker_t) (b i : Z) : resource_tracker_t :=
  if 4 <=? i then g
  else
    let g1 := with_owner g b (Z.to_nat i) None in
    if 0 <? active_count g1 then set_active_count (uint_decr (active_count g1)) g1 else g1.

(** The number of owned entries of an owner array, and of the tracker. *)
Fixpoint count_owned (l : list target_ptr) : nat :=
  match l with
  | [] => 0
  | Some _ :: l' => S (count_owned l')
  | None :: l' => count_owned l'
  end.

Definition total_owned (g : resource_tracker_t) : nat :=
  (count_owned (pio0_sm_owners g) + count_owned (pio1_sm_owners g))%nat.

(** ** Creation *)

(** The condition under which [swd_target_create] allocates a slot itself. *)
Definition cfg_auto (cfg : swd_config_t) : bool :=
  (cfg_pio cfg =? SWD_PIO_AUTO) || (cfg_sm cfg =? SWD_SM_AUTO).

(** A slot can be registered for [cfg]: some slot is free in auto mode, the
    requested one is free otherwise. Pins and frequency play no part. *)
Definition slot_available (cfg : swd_config_t) (g : resource_tracker_t) : Prop :=
  if cfg_auto cfg
  then ~ (all_owned (pio0_sm_owners g) /\ all_owned (pio1_sm_owners g))
  else slot_free g (cfg_pio cfg) (cfg_sm cfg).

(** The assignments of [create_register] after a successful registration. *)
Definition finish_target (cfg : swd_config_t) (t : swd_target) : swd_target :=
  set_rp2350 init_harts
    (set_rp2350 (set_sba_initialized false)
    (set_rp2350 (set_initialized false)
    (set_rp2350 (set_cache_enabled (cfg_enable_caching cfg))
    (set_dap (set_current_bank 0xFF)
    (set_dap (set_current_apsel 0xFF)
    (set_dap (set_retry_count (cfg_retry_count cfg))
    (set_dap (set_powered false)
    (set_resource_registered true t)))))))).

(** The session object a successful creation on slot [(b, i)] leaves. *)
Definition created_target (cfg : swd_config_t) (b i : Z) : swd_target :=
  mk_target (mk_pio b i 0 (cfg_pin_swclk cfg) (cfg_pin_swdio cfg) (cfg_freq_khz cfg) false)
            false 0
            (mk_dap 0xFF 0xFF false 0 false (cfg_retry_count cfg))
            (mk_rp2350 false false [hart_zero; hart_zero] (cfg_enable_caching cfg))
            SWD_OK 0 EmptyString true.

(** ** Destruction *)

(** The outgoing calls of [swd_target_destroy] on the live session [t] at
    [p], in order, and the tracker it leaves. *)
Definition destroy_calls (p : addr) (t : swd_target) : list event :=
  (if connected t then [EvDisconnect p] else []) ++
  (if resource_registered t && negb (4 <=? sm (t_pio t))
   then [EvRelease (pio (t_pio t)) (sm (t_pio t))] else []) ++
  [EvFree p].

Definition destroy_tracker (t : swd_target) (g : resource_tracker_t) : resource_tracker_t :=
  if resource_registered t then released g (pio (t_pio t)) (sm (t_pio t)) else g.

(** ** The tracker invariant *)

(** Every owner is a live, registered session whose own [pio] and [sm] name
    the slot; every live registered session is the owner of the slot it
    names; the count is the number of owned slots. *)
Record tracker_inv (w : world) : Prop := mk_tracker_inv {
  inv_wf : tracker_wf (g_resources w);
  inv_owner : forall b i p,
    b = pio0 \/ b = pio1 ->
    owners_of (g_resources w) b !! i = Some (Some p) ->
    exists t, heap w !! p = Some t /\ resource_registered t = true /\
              pio (t_pio t) = b /\ sm (t_pio t) < 4 /\ Z.to_nat (sm (t_pio t)) = i;
  inv_registered : forall p t,
    heap w !! p = Some t -> resource_registered t = true ->
    (pio (t_pio t) = pio0 \/ pio (t_pio t) = pio1) /\ sm (t_pio t) < 4 /\
    owners_of (g_resources w) (pio (t_pio t)) !! Z.to_nat (sm (t_pio t)) = Some (Some p);
  inv_count : active_count (g_resources w) = Z.of_nat (total_owned (g_resources w))
}.

(** A call of the lifecycle interface; [mem] is the allocator's answer to
    the [calloc] of a creation. *)
Inductive lifecycle_call : Type :=
  | CallCreate (config : option swd_config_t) (mem : target_ptr)
  | CallDestroy (target : target_ptr).

Definition run_call (c : lifecycle_call) : M unit :=
  match c with
  | CallCreate config mem => do _ <- swd_target_create config mem in ret tt
  | CallDestroy target => swd_target_destroy target
  end.

Fixpoint run_calls (cs : list lifecycle_call) : M unit :=
  match cs with
  | [] => ret tt
  | c :: cs' => exec run_call c in run_calls cs'
  end.

(** ** Example worlds *)

Definition cfg_gpio23 : swd_config_t := mk_config SWD_PIO_AUTO SWD_SM_AUTO 2 3 1000 true 5.

(** SWCLK and SWDIO on the same pin; a frequency of 0 kHz. *)
Definition cfg_same_pins : swd_config_t := mk_config SWD_PIO_AUTO SWD_SM_AUTO 5 5 1000 true 5.
Definition cfg_zero_freq : swd_config_t := mk_config pio1 3 2 3 0 true 5.

Definition demo_calls : list lifecycle_call :=
  [CallCreate (Some cfg_gpio23) (Some 1%positive);
   CallCreate (Some (mk_config pio1 2 4 5 500 false 3)) (Some 2%positive);
   CallCreate (Some (mk_config pio0 0 6 7 1000 true 5)) (Some 3%positive);
   CallDestroy (Some 1%positive);
   CallCreate (Some cfg_gpio23) (Some 1%positive)].

Definition demo_world : world :=
  Eval vm_compute in
    match run_calls demo_calls world_init with
    | Some (_, w) => w
    | None => world_init
    end.

Definition world_created : world :=
  Eval vm_compute in
    match swd_target_create (Some cfg_gpio23) (Some 1%positive) world_init with
    | Some (_, w) => w
    | None => world_init
    end.

Definition world_destroyed : world :=
  Eval vm_compute in
    match swd_target_destroy (Some 1%positive) world_created with
    | Some (_, w) => w
    | None => world_init
    end.

Definition world_same_pins : world :=
  Eval vm_compute in
    match swd_target_create (Some cfg_same_pins) (Some 1%positive) world_init with
    | Some (_, w) => w
    | None => world_init
    end.

Definition world_zero_freq : world :=
  Eval vm_compute in
    match swd_target_create (Some cfg_zero_freq) (Some 1%positive) world_init with
    | Some (_, w) => w
    | None => world_init
    end.

(** The session of [world_created] as a successful connect leaves it. *)
Definition target_connected : swd_target :=
  mk_target (t_pio (created_target cfg_gpio23 pio0 0)) true 0x4c013477
            (mk_dap 0xFF 0xFF false 0 true 5)
            (rp2350 (created_target cfg_gpio23 pio0 0)) SWD_OK 1 EmptyString true.

Definition world_connected : world :=
  mk_world (<[1%positive := target_connected]> (heap world_created))
           (g_resources world_created) (calls world_created).

(** ** The driver: what an operation puts on the wire *)

(** No transaction of [l] failed. *)
Definition clean (l : list (dmi_op * option link_fault)) : Prop :=
  Forall (fun x => x.2 = None) l.

Definition err_of {A} (r : swd_error_t + A) : option swd_error_t :=
  match r with
  | inl e => Some e
  | inr _ => None
  end.





(** ** Example session *)


Definition demo_hart : hart_hw := mk_hart_hw false false 1 0x20010200 (replicate 32 7).

Definition demo_memory : gmap Z Z :=
  list_to_map (map (fun i => (0x20010200 + 4 * Z.of_nat i, 0x00000013)) (seq 0 16)).

(** A connected session with the Debug Module initialised, both harts
    running, over a link that never fails. *)
Definition demo_session : session :=
  mk_session (set_rp2350 (set_initialized true) target_zero)
             [demo_hart; demo_hart] demo_memory None [] 8.



(** ** swd.c: the error string table by code *)

(** The [error_strings] array, indexed by the value of the enumeration. *)
Definition error_strings : list string :=
  [ "Success"; "Timeout"; "Target fault"; "Protocol error"; "Parity error";
    "Wait timeout"; "Not connected"; "Hart not halted"; "Hart already halted";
    "Invalid state"; "Out of memory"; "Invalid configuration"; "Resource busy";
    "Invalid parameter"; "Not initialized"; "Abstract command failed"; "Bus error";
    "Alignment error"; "Verification failed" ]%string.

(** [swd_error_string] on the integer its argument is compared as: the bound
    check against the number of entries of the table, then the lookup. *)
Definition swd_error_string_at (error : Z) : string :=
  if Z.of_nat (length error_strings) <=? error then "Unknown error"%string
  else nth (Z.to_nat error) error_strings EmptyString.

(** ** Usage flags and live sessions *)

(** The number of flags set in a usage array of [swd_resource_info_t]. *)
Fixpoint count_used (l : list bool) : nat :=
  match l with
  | [] => 0
  | true :: l' => S (count_used l')
  | false :: l' => count_used l'
  end.

(** Every live session is registered and not connected, and there are as
    many live sessions as the count says. *)
Definition sessions_inv (w : world) : Prop :=
  (forall p t, heap w !! p = Some t ->
               resource_registered t = true /\ connected t = false) /\
  Z.of_nat (size (heap w)) = active_count (g_resources w).

(** ** More example worlds *)

(** A request for SM0 of PIO0, which [world_created] has given away. *)
Definition cfg_pio0_sm0 : swd_config_t := mk_config pio0 0 6 7 1000 true 5.

Definition world_refused : world :=
  Eval vm_compute in
    match swd_target_create (Some cfg_pio0_sm0) (Some 3%positive) world_created with
    | Some (_, w) => w
    | None => world_init
    end.

Definition cfg_pio1_sm2 : swd_config_t := mk_config pio1 2 4 5 500 false 3.

Definition world_two : world :=
  Eval vm_compute in
    match swd_target_create (Some cfg_pio1_sm2) (Some 2%positive) world_created with
    | Some (_, w) => w
    | None => world_init
    end.

Definition world_two_destroyed : world :=
  Eval vm_compute in
    match swd_target_destroy (Some 1%positive) world_two with
    | Some (_, w) => w
    | None => world_init
    end.

Definition world_unregistered : world :=
  Eval vm_compute in
    match unregister_target (Some 1%positive) world_created with
    | Some (_, w) => w
    | None => world_init
    end.

Definition world_registered : world :=
  Eval vm_compute in
    match register_target (Some 2%positive) pio1 2 world_created with
    | Some (_, w) => w
    | None => world_init
    end.

(** ** Calls of the whole interface of swd.c *)

(** A call of any operation of swd.c that takes a handle or the tracker: the
    lifecycle calls and the queries and error-context operations. *)
Inductive api_call : Type :=
  | ApiLifecycle (c : lifecycle_call)
  | ApiReadIdcode (target : target_ptr)
  | ApiIsConnected (target : target_ptr)
  | ApiGetFrequency (target : target_ptr)
  | ApiSetError (target : target_ptr) (e : swd_error_t) (detail : option string)
  | ApiGetDetail (target : target_ptr)
  | ApiGetUsage.

Definition run_api (c : api_call) : M unit :=
  match c with
  | ApiLifecycle c => run_call c
  | ApiReadIdcode target => do _ <- swd_read_idcode target in ret tt
  | ApiIsConnected target => do _ <- swd_is_connected target in ret tt
  | ApiGetFrequency target => do _ <- swd_get_frequency target in ret tt
  | ApiSetError target e detail => swd_set_error target e detail
  | ApiGetDetail target => do _ <- swd_get_last_error_detail target in ret tt
  | ApiGetUsage => do _ <- swd_get_resource_usage in ret tt
  end.

Fixpoint run_apis (cs : list api_call) : M unit :=
  match cs with
  | [] => ret tt
  | c :: cs' => exec run_api c in run_apis cs'
  end.

Definition demo_apis : list api_call :=
  [ApiLifecycle (CallCreate (Some cfg_gpio23) (Some 1%positive));
   ApiReadIdcode (Some 1%positive);
   ApiLifecycle (CallCreate (Some cfg_pio1_sm2) (Some 2%positive));
   ApiSetError (Some 2%positive) SWD_ERROR_TIMEOUT None;
   ApiGetUsage;
   ApiLifecycle (CallDestroy (Some 1%positive));
   ApiIsConnected None].

Definition world_apis : world :=
  Eval vm_compute in
    match run_apis demo_apis world_init with
    | Some (_, w) => w
    | None => world_init
    end.

(** ** The driver: a trace that meets no error *)





(** From [s] to [s'] every transaction succeeded, and a link that never fails
    is still one. *)
Definition extends_clean (s s' : session) : Prop :=
  (link s = None -> link s' = None) /\
  exists new, wire s' = wire s ++ new /\ clean new.

(** From [s] to [s'] the last transaction failed, on a link that can fail. *)
Definition stops_failed (s s' : session) : Prop :=
  link s <> None /\
  exists pre op f, wire s' = wire s ++ pre ++ [(op, Some f)] /\ clean pre.

(** [m] run from [s] returns a value and a session that satisfy [Q] after
    successful transactions only, or stops at a failed transaction. *)
Definition completes {A} (m : D A) (s : session) (Q : A -> session -> Prop) : Prop :=
  match m s with
  | (inr a, s') => Q a s' /\ extends_clean s s'
  | (inl e, s') => stops_failed s s'
  end.




(** * Lemmas and theorems *)

(** C5: ACK decoding is total: 001b is OK, 010b is WAIT, 100b is FAULT, and
    every other value of the ack byte, 000b, 011b, 101b, 110b and 111b
    included, is a protocol error. *)
Theorem swd_ack_to_error_decoding (ack : Z) :
  swd_ack_to_error ack =
    match ack with
    | 1 => SWD_OK
    | 2 => SWD_ERROR_WAIT
    | 4 => SWD_ERROR_FAULT
    | _ => SWD_ERROR_PROTOCOL
    end.
Proof.
  unfold swd_ack_to_error, SWD_ACK_OK, SWD_ACK_WAIT, SWD_ACK_FAULT, SWD_ACK_ERROR.
  repeat case Z.eqb_spec; intros; subst; try reflexivity.
  destruct ack as [|[[[]|[]|]|[[]|[]|]|]|]; try reflexivity; lia.
Qed.

(** ** The monad *)

Lemma bind_Some {A B} (m : M A) (k : A -> M B) w a w' :
  m w = Some (a, w') -> bind m k w = k a w'.
Proof. intros H. unfold bind. now rewrite H. Qed.

(** ** The allocator *)

(** A scan over entries that exist returns the first unowned index, if any,
    and changes nothing. *)
Lemma scan_free_spec (owners : list target_ptr) (n i : nat) (w : world) :
  (i + n <= length owners)%nat ->
  exists r, scan_free owners i n w = Some (r, w) /\
    match r with
    | Some k => (i <= k < i + n)%nat /\ owners !! k = Some None /\
                forall j, (i <= j < k)%nat -> owned owners j
    | None => forall j, (i <= j < i + n)%nat -> owned owners j
    end.
Proof.
  revert i. induction n as [|n IH]; intros i Hlen.
  - exists None. split; [reflexivity|]. intros j Hj. lia.
  - destruct (lookup_lt_is_Some_2 owners i) as [o Ho]; [lia|].
    cbn [scan_free]. unfold owner_at. rewrite Ho.
    destruct o as [q|].
    + destruct (IH (S i)) as [r [Hr Hspec]]; [lia|].
      exists r. split.
      * unfold bind, ret. exact Hr.
      * destruct r as [k|].
        -- destruct Hspec as (Hk & Hfree & Hbelow). split; [lia|]. split; [exact Hfree|].
           intros j Hj. destruct (decide (j = i)) as [->|Hne]; [exists q; exact Ho|].
           apply Hbelow. lia.
        -- intros j Hj. destruct (decide (j = i)) as [->|Hne]; [exists q; exact Ho|].
           apply Hspec. lia.
    + exists (Some i). split; [reflexivity|]. split; [lia|]. split; [exact Ho|].
      intros j Hj. lia.
Qed.

Lemma pio1_not_pio0 : (pio1 =? pio0) = false.
Proof. reflexivity. Qed.

Lemma first_free_lt (owners : list target_ptr) i :
  length owners = 4%nat -> first_free owners i -> (i < 4)%nat.
Proof.
  intros Hlen [Hi _]. apply lookup_lt_Some in Hi. lia.
Qed.

Lemma first_free_not_all (owners : list target_ptr) i :
  length owners = 4%nat -> first_free owners i -> ~ all_owned owners.
Proof.
  intros Hlen Hff Hall. pose proof (first_free_lt _ _ Hlen Hff) as Hi.
  destruct Hff as [Hi0 _]. destruct (Hall i Hi) as [p Hp]. congruence.
Qed.

Lemma allocate_cases (w : world) :
  tracker_wf (g_resources w) ->
  exists r, allocate_pio_sm w = Some (r, w) /\
    ((exists i, first_free (pio0_sm_owners (g_resources w)) i /\
                r = (SWD_OK, Some (pio0, Z.of_nat i))) \/
     (all_owned (pio0_sm_owners (g_resources w)) /\
      exists i, first_free (pio1_sm_owners (g_resources w)) i /\
                r = (SWD_OK, Some (pio1, Z.of_nat i))) \/
     (all_owned (pio0_sm_owners (g_resources w)) /\
      all_owned (pio1_sm_owners (g_resources w)) /\
      r = (SWD_ERROR_RESOURCE_BUSY, None))).
Proof.
  intros [H0 H1]. unfold allocate_pio_sm, get_resources.
  destruct (scan_free_spec (pio0_sm_owners (g_resources w)) 4 0 w) as [r0 [E0 S0]]; [lia|].
  destruct (scan_free_spec (pio1_sm_owners (g_resources w)) 4 0 w) as [r1 [E1 S1]]; [lia|].
  unfold bind at 1. unfold bind at 1. rewrite E0.
  destruct r0 as [k|].
  - eexists. split; [reflexivity|]. left. exists k. split; [|reflexivity].
    destruct S0 as (_ & Hk & Hb). split; [exact Hk|]. intros j Hj. apply Hb. lia.
  - unfold bind. rewrite E1. destruct r1 as [k|].
    + eexists. split; [reflexivity|]. right. left. split.
      * intros j Hj. apply S0. lia.
      * exists k. split; [|reflexivity]. destruct S1 as (_ & Hk & Hb).
        split; [exact Hk|]. intros j Hj. apply Hb. lia.
    + eexists. split; [reflexivity|]. right. right. split; [|split; [|reflexivity]].
      * intros j Hj. apply S0. lia.
      * intros j Hj. apply S1. lia.
Qed.

(** ** Stepping through the lifecycle code *)

Lemma bind_calloc {B} (k : target_ptr -> M B) p w :
  heap w !! p = None ->
  bind (calloc (Some p)) k w =
  k (Some p) (mk_world (<[p := target_zero]> (heap w)) (g_resources w) (calls w)).
Proof. intros H. unfold bind, calloc. now rewrite H. Qed.

Lemma bind_modify {B} (k : unit -> M B) p f t h g c :
  bind (modify p f) k (mk_world (<[p := t]> h) g c) =
  k tt (mk_world (<[p := f t]> h) g c).
Proof.
  unfold bind, modify. cbn [heap g_resources calls].
  now rewrite lookup_insert_eq, insert_insert_eq.
Qed.

Lemma bind_load {B} (k : swd_target -> M B) p t h g c :
  bind (load p) k (mk_world (<[p := t]> h) g c) = k t (mk_world (<[p := t]> h) g c).
Proof.
  unfold bind, load. cbn [heap]. now rewrite lookup_insert_eq.
Qed.

Lemma bind_set_error {B} (k : unit -> M B) p e d t h g c :
  bind (swd_set_error (Some p) e (Some d)) k (mk_world (<[p := t]> h) g c) =
  k tt (mk_world (<[p := set_error_detail (detail_text d) (set_last_error e t)]> h) g c).
Proof.
  unfold swd_set_error. unfold bind at 1. rewrite bind_modify.
  unfold modify. cbn [heap g_resources calls].
  now rewrite lookup_insert_eq, insert_insert_eq.
Qed.

Lemma bind_free_fresh {B} (k : unit -> M B) p t h g c :
  h !! p = None ->
  bind (free p) k (mk_world (<[p := t]> h) g c) = k tt (mk_world h g (c ++ [EvFree p])).
Proof.
  intros H. unfold bind, free. cbn [heap g_resources calls].
  rewrite lookup_insert_eq, delete_insert_eq. now rewrite delete_id.
Qed.

Lemma register_target_free p b i h g c :
  slot_free g b i ->
  register_target (Some p) b i (mk_world h g c) =
  Some (true, mk_world h (set_active_count (uint_incr (active_count g))
                            (with_owner g b (Z.to_nat i) (Some p))) c).
Proof.
  intros (Hb & Hi & Hfree). unfold register_target.
  destruct (Z.leb_spec 4 i) as [|_]; [lia|].
  unfold owners_of, with_owner in *.
  destruct Hb as [-> | ->].
  - rewrite Z.eqb_refl in *. unfold bind, get_resources, owner_at. cbn [g_resources].
    rewrite Hfree. reflexivity.
  - rewrite pio1_not_pio0, Z.eqb_refl in *. unfold bind, get_resources, owner_at.
    cbn [g_resources]. rewrite Hfree. reflexivity.
Qed.

Lemma register_target_refused p b i w :
  tracker_wf (g_resources w) -> ~ slot_free (g_resources w) b i ->
  register_target (Some p) b i w = Some (false, w).
Proof.
  intros [H0 H1] Hn. unfold register_target.
  destruct (Z.leb_spec 4 i) as [|Hi]; [reflexivity|].
  unfold slot_free, owners_of in Hn.
  destruct (Z.eqb_spec b pio0) as [->|Hb0].
  - destruct (lookup_lt_is_Some_2 (pio0_sm_owners (g_resources w)) (Z.to_nat i)) as [o Ho];
      [lia|].
    unfold bind, get_resources, owner_at. rewrite Ho.
    destruct o as [q|]; [reflexivity|]. exfalso. apply Hn. auto.
  - destruct (Z.eqb_spec b pio1) as [->|Hb1]; [|reflexivity].
    destruct (lookup_lt_is_Some_2 (pio1_sm_owners (g_resources w)) (Z.to_nat i)) as [o Ho];
      [lia|].
    unfold bind, get_resources, owner_at. rewrite Ho.
    destruct o as [q|]; [reflexivity|]. exfalso. apply Hn. auto.
Qed.

Lemma create_register_ok cfg p t h g c :
  slot_free g (pio (t_pio t)) (sm (t_pio t)) ->
  create_register cfg p (mk_world (<[p := t]> h) g c) =
  Some (Some p,
        mk_world (<[p := finish_target cfg t]> h)
                 (claimed g (pio (t_pio t)) (sm (t_pio t)) p) c).
Proof.
  intros Hfree. unfold create_register. rewrite bind_load.
  unfold bind at 1. rewrite (register_target_free _ _ _ _ _ _ Hfree).
  cbn [negb]. rewrite !bind_modify. reflexivity.
Qed.

Lemma create_register_busy cfg p t h g c :
  tracker_wf g -> h !! p = None ->
  ~ slot_free g (pio (t_pio t)) (sm (t_pio t)) ->
  create_register cfg p (mk_world (<[p := t]> h) g c) =
  Some (None, mk_world h g (c ++ [EvFree p])).
Proof.
  intros Hwf Hp Hbusy. unfold create_register. rewrite bind_load.
  unfold bind at 1. rewrite register_target_refused by assumption.
  cbn [negb]. rewrite bind_set_error, bind_free_fresh by assumption. reflexivity.
Qed.

Lemma first_free_slot_free g i :
  tracker_wf g ->
  (first_free (pio0_sm_owners g) i -> slot_free g pio0 (Z.of_nat i)) /\
  (first_free (pio1_sm_owners g) i -> slot_free g pio1 (Z.of_nat i)).
Proof.
  intros [H0 H1]. split; intros Hff.
  - pose proof (first_free_lt _ _ H0 Hff). destruct Hff as [Hi _].
    split; [auto|]. split; [lia|]. unfold owners_of. rewrite Z.eqb_refl, Nat2Z.id. exact Hi.
  - pose proof (first_free_lt _ _ H1 Hff). destruct Hff as [Hi _].
    split; [auto|]. split; [lia|]. unfold owners_of.
    rewrite pio1_not_pio0, Z.eqb_refl, Nat2Z.id. exact Hi.
Qed.

Lemma classic_slot_free g b i : slot_free g b i \/ ~ slot_free g b i.
Proof.
  unfold slot_free.
  destruct (decide (b = pio0 \/ b = pio1)) as [Hb|Hb]; [|right; tauto].
  destruct (decide (i < 4)) as [Hi|Hi]; [|right; tauto].
  destruct (decide (owners_of g b !! Z.to_nat i = Some None)) as [Ho|Ho]; [|right; tauto].
  left. tauto.
Qed.

Lemma create_cases cfg p w :
  tracker_wf (g_resources w) -> heap w !! p = None ->
  (exists b i,
      slot_free (g_resources w) b i /\
      (cfg_auto cfg = false -> b = cfg_pio cfg /\ i = cfg_sm cfg) /\
      slot_available cfg (g_resources w) /\
      swd_target_create (Some cfg) (Some p) w =
      Some (Some p, mk_world (<[p := created_target cfg b i]> (heap w))
                             (claimed (g_resources w) b i p) (calls w)))
  \/ (~ slot_available cfg (g_resources w) /\
      swd_target_create (Some cfg) (Some p) w =
      Some (None, mk_world (heap w) (g_resources w) (calls w ++ [EvFree p]))).
Proof.
  intros Hwf Hp.
  remember (swd_target_create (Some cfg) (Some p) w) as res eqn:E.
  unfold swd_target_create in E.
  rewrite (bind_calloc _ _ _ Hp) in E. cbv beta iota in E. rewrite !bind_modify in E.
  fold (cfg_auto cfg) in E. unfold slot_available.
  destruct (cfg_auto cfg) eqn:Hauto.
  - match type of E with
    | _ = bind allocate_pio_sm _ ?w1 =>
        destruct (allocate_cases w1) as [r [Ealloc Hr]]; [exact Hwf|];
        rewrite (bind_Some _ _ _ _ _ Ealloc) in E; cbn [g_resources] in Hr
    end.
    destruct Hwf as [H0 H1].
    destruct Hr as [(i & Hff & ->) | [(Hall & i & Hff & ->) | (Hall0 & Hall1 & ->)]];
      cbn [fst snd] in E;
      [ rewrite (bool_decide_eq_true_2 _ eq_refl) in E
      | rewrite (bool_decide_eq_true_2 _ eq_refl) in E
      | rewrite bool_decide_eq_false_2 in E by discriminate ];
      cbn [negb] in E.
    + left. exists pio0, (Z.of_nat i).
      pose proof (proj1 (first_free_slot_free _ i (conj H0 H1)) Hff) as Hsf.
      split; [exact Hsf|]. split; [discriminate|]. split.
      * intros [Hall _]. exact (first_free_not_all _ _ H0 Hff Hall).
      * rewrite !bind_modify, create_register_ok in E by exact Hsf. exact E.
    + left. exists pio1, (Z.of_nat i).
      pose proof (proj2 (first_free_slot_free _ i (conj H0 H1)) Hff) as Hsf.
      split; [exact Hsf|]. split; [discriminate|]. split.
      * intros [_ Hall1]. exact (first_free_not_all _ _ H1 Hff Hall1).
      * rewrite !bind_modify, create_register_ok in E by exact Hsf. exact E.
    + right. split; [tauto|].
      rewrite bind_set_error, bind_free_fresh in E by exact Hp. exact E.
  - rewrite !bind_modify in E.
    destruct (classic_slot_free (g_resources w) (cfg_pio cfg) (cfg_sm cfg)) as [Hsf | Hbusy].
    + left. exists (cfg_pio cfg), (cfg_sm cfg). split; [exact Hsf|]. split; [auto|].
      split; [exact Hsf|]. rewrite create_register_ok in E by exact Hsf. exact E.
    + right. split; [exact Hbusy|].
      rewrite create_register_busy in E by assumption. exact E.
Qed.

(** ** Counting and updating owners *)

Lemma count_owned_le l : (count_owned l <= length l)%nat.
Proof. induction l as [|[q|] l IH]; simpl; lia. Qed.

Lemma count_owned_claim l i p :
  l !! i = Some None -> count_owned (<[i := Some p]> l) = S (count_owned l).
Proof.
  revert i. induction l as [|o l IH]; intros [|i] H; try discriminate.
  - simpl in H. injection H as ->. reflexivity.
  - simpl in H. destruct o; simpl; rewrite (IH i H); reflexivity.
Qed.

Lemma count_owned_release l i q :
  l !! i = Some (Some q) -> S (count_owned (<[i := None]> l)) = count_owned l.
Proof.
  revert i. induction l as [|o l IH]; intros [|i] H; try discriminate.
  - simpl in H. injection H as ->. reflexivity.
  - simpl in H. destruct o; simpl; rewrite <- (IH i H); reflexivity.
Qed.

Lemma total_owned_le g : tracker_wf g -> (total_owned g <= 8)%nat.
Proof.
  intros [H0 H1]. unfold total_owned.
  pose proof (count_owned_le (pio0_sm_owners g)).
  pose proof (count_owned_le (pio1_sm_owners g)). lia.
Qed.

Lemma owners_of_length g b :
  tracker_wf g -> b = pio0 \/ b = pio1 -> length (owners_of g b) = 4%nat.
Proof.
  intros [H0 H1] [-> | ->]; unfold owners_of.
  - now rewrite Z.eqb_refl.
  - now rewrite pio1_not_pio0, Z.eqb_refl.
Qed.

Lemma owners_of_with_owner g b i o b' :
  b = pio0 \/ b = pio1 -> b' = pio0 \/ b' = pio1 ->
  owners_of (with_owner g b i o) b' =
  if decide (b' = b) then <[i := o]> (owners_of g b) else owners_of g b'.
Proof.
  intros [-> | ->] [-> | ->]; unfold owners_of, with_owner;
    rewrite ?Z.eqb_refl, ?pio1_not_pio0; cbn [pio0_sm_owners pio1_sm_owners set_pio0_owner set_pio1_owner];
    rewrite ?Z.eqb_refl, ?pio1_not_pio0; case_decide; try reflexivity; try congruence.
  - exfalso. revert H. discriminate.
  - exfalso. revert H. discriminate.
Qed.

Lemma owners_of_set_active_count g n b :
  owners_of (set_active_count n g) b = owners_of g b.
Proof. reflexivity. Qed.

Lemma with_owner_wf g b i o : tracker_wf g -> tracker_wf (with_owner g b i o).
Proof.
  intros [H0 H1]. unfold with_owner, tracker_wf.
  destruct (b =? pio0); [|destruct (b =? pio1)];
    cbn [pio0_sm_owners pio1_sm_owners set_pio0_owner set_pio1_owner];
    rewrite ?length_insert; auto.
Qed.

Lemma total_owned_claim g b i p :
  b = pio0 \/ b = pio1 -> owners_of g b !! i = Some None ->
  total_owned (with_owner g b i (Some p)) = S (total_owned g).
Proof.
  intros [-> | ->] H; unfold owners_of, with_owner, total_owned in *;
    rewrite ?Z.eqb_refl, ?pio1_not_pio0 in *;
    cbn [pio0_sm_owners pio1_sm_owners set_pio0_owner set_pio1_owner];
    rewrite (count_owned_claim _ _ _ H); lia.
Qed.

Lemma total_owned_release g b i q :
  b = pio0 \/ b = pio1 -> owners_of g b !! i = Some (Some q) ->
  S (total_owned (with_owner g b i None)) = total_owned g.
Proof.
  intros [-> | ->] H; unfold owners_of, with_owner, total_owned in *;
    rewrite ?Z.eqb_refl, ?pio1_not_pio0 in *;
    cbn [pio0_sm_owners pio1_sm_owners set_pio0_owner set_pio1_owner];
    rewrite <- (count_owned_release _ _ _ H); lia.
Qed.

Lemma uint_incr_small n : 0 <= n < 8 -> uint_incr n = n + 1.
Proof. intros H. unfold uint_incr, uint_max. apply Z.mod_small. lia. Qed.

Lemma uint_decr_small n : 0 < n <= 8 -> uint_decr n = n - 1.
Proof. intros H. unfold uint_decr, uint_max. apply Z.mod_small. lia. Qed.

(** ** The invariant is established and preserved *)

Lemma inv_init : tracker_inv world_init.
Proof.
  split.
  - split; reflexivity.
  - intros b i p [-> | ->] H; exfalso;
      destruct i as [|[|[|[|i]]]]; discriminate H.
  - intros p t H. cbn [world_init heap] in H. rewrite lookup_empty in H. discriminate.
  - reflexivity.
Qed.

Lemma inv_create w cfg b i p :
  tracker_inv w -> heap w !! p = None -> slot_free (g_resources w) b i ->
  tracker_inv (mk_world (<[p := created_target cfg b i]> (heap w))
                        (claimed (g_resources w) b i p) (calls w)).
Proof.
  intros [Hwf Hown Hreg Hcnt] Hp (Hb & Hi & Hfree).
  pose proof (owners_of_length _ _ Hwf Hb) as Hlen.
  assert (Hlt : (Z.to_nat i < length (owners_of (g_resources w) b))%nat)
    by (apply lookup_lt_Some in Hfree; exact Hfree).
  split; cbn [heap g_resources calls]; unfold claimed.
  - unfold tracker_wf. cbn [pio0_sm_owners pio1_sm_owners set_active_count].
    apply with_owner_wf. exact Hwf.
  - intros b' j q Hb' Hq. rewrite owners_of_set_active_count in Hq.
    rewrite owners_of_with_owner in Hq by assumption.
    destruct (decide (b' = b)) as [-> | Hne].
    + destruct (decide (j = Z.to_nat i)) as [-> | Hj].
      * rewrite list_lookup_insert_eq in Hq by exact Hlt. injection Hq as <-.
        exists (created_target cfg b i). rewrite lookup_insert_eq.
        cbn. auto.
      * rewrite list_lookup_insert_ne in Hq by congruence.
        destruct (Hown _ _ _ Hb Hq) as (t & Ht & Hrest).
        exists t. split; [|exact Hrest].
        rewrite lookup_insert_ne; [exact Ht|]. intros ->. congruence.
    + destruct (Hown _ _ _ Hb' Hq) as (t & Ht & Hrest).
      exists t. split; [|exact Hrest].
      rewrite lookup_insert_ne; [exact Ht|]. intros ->. congruence.
  - intros q t Hq Hr. rewrite owners_of_set_active_count.
    destruct (decide (q = p)) as [-> | Hne].
    + rewrite lookup_insert_eq in Hq. injection Hq as <-. cbn [created_target t_pio pio sm].
      split; [exact Hb|]. split; [exact Hi|].
      rewrite owners_of_with_owner by assumption. rewrite decide_True by reflexivity.
      apply list_lookup_insert_eq. exact Hlt.
    + rewrite lookup_insert_ne in Hq by congruence.
      destruct (Hreg _ _ Hq Hr) as (Hb' & Hi' & Ho).
      split; [exact Hb'|]. split; [exact Hi'|].
      rewrite owners_of_with_owner by assumption.
      destruct (decide (pio (t_pio t) = b)) as [Heq | Hneq]; [|exact Ho].
      rewrite list_lookup_insert_ne; [rewrite <- Heq; exact Ho|].
      intros Hidx. rewrite Heq, <- Hidx, Hfree in Ho. discriminate.
  - cbn [active_count set_active_count].
    change (total_owned (set_active_count _ ?g)) with (total_owned g).
    rewrite (total_owned_claim _ _ _ _ Hb Hfree).
    pose proof (total_owned_le _ Hwf) as Hle.
    assert (total_owned (with_owner (g_resources w) b (Z.to_nat i) (Some p)) <= 8)%nat as Hle'
      by (apply total_owned_le, with_owner_wf, Hwf).
    rewrite (total_owned_claim _ _ _ _ Hb Hfree) in Hle'.
    rewrite uint_incr_small.
    + unfold with_owner. destruct (b =? pio0); [|destruct (b =? pio1)];
        cbn [active_count set_pio0_owner set_pio1_owner]; lia.
    + unfold with_owner. destruct (b =? pio0); [|destruct (b =? pio1)];
        cbn [active_count set_pio0_owner set_pio1_owner]; lia.
Qed.

(** ** Destruction in closed form *)

Lemma bind_emit {B} (k : unit -> M B) e h g c :
  bind (emit e) k (mk_world h g c) = k tt (mk_world h g (c ++ [e])).
Proof. reflexivity. Qed.

Lemma release_pio_sm_eq b i h g c :
  release_pio_sm b i (mk_world h g c) =
  Some (tt, mk_world h (released g b i) (c ++ (if 4 <=? i then [] else [EvRelease b i]))).
Proof.
  unfold release_pio_sm, released. destruct (4 <=? i).
  - unfold ret. now rewrite app_nil_r.
  - reflexivity.
Qed.

Lemma destroy_insert p t h g c :
  swd_target_destroy (Some p) (mk_world (<[p := t]> h) g c) =
  Some (tt, mk_world (delete p h) (destroy_tracker t g) (c ++ destroy_calls p t)).
Proof.
  unfold swd_target_destroy, destroy_calls, destroy_tracker. rewrite bind_load.
  assert (Hun : forall t' c',
    resource_registered t' = resource_registered t -> t_pio t' = t_pio t ->
    bind (unregister_target (Some p)) (fun _ => free p) (mk_world (<[p := t']> h) g c') =
    Some (tt, mk_world (delete p h)
                (if resource_registered t
                 then released g (pio (t_pio t)) (sm (t_pio t)) else g)
                (c' ++ (if resource_registered t && negb (4 <=? sm (t_pio t))
                        then [EvRelease (pio (t_pio t)) (sm (t_pio t))] else [])
                    ++ [EvFree p]))).
  { intros t' c' Hr Hpio. unfold unregister_target. unfold bind at 1. rewrite bind_load.
    rewrite Hr, Hpio. destruct (resource_registered t); cbn [negb andb].
    - unfold bind at 1. rewrite release_pio_sm_eq. unfold modify. cbn [heap g_resources calls].
      rewrite lookup_insert_eq, insert_insert_eq. unfold free. cbn [heap g_resources calls].
      rewrite lookup_insert_eq, delete_insert_eq.
      destruct (4 <=? sm (t_pio t)); cbn [negb]; now rewrite <- ?app_assoc.
    - unfold ret, free. cbn [heap g_resources calls].
      now rewrite lookup_insert_eq, delete_insert_eq. }
  destruct (connected t) eqn:Hc.
  - unfold bind at 1. unfold swd_disconnect. unfold bind at 1.
    rewrite bind_emit, !bind_modify. unfold ret at 1 2.
    rewrite Hun by reflexivity. now rewrite <- !app_assoc.
  - unfold bind at 1. unfold ret at 1. rewrite Hun by reflexivity. reflexivity.
Qed.

Lemma destroy_live p t w :
  heap w !! p = Some t ->
  swd_target_destroy (Some p) w =
  Some (tt, mk_world (delete p (heap w)) (destroy_tracker t (g_resources w))
                     (calls w ++ destroy_calls p t)).
Proof.
  intros H. destruct w as [h g c]. cbn [heap g_resources calls] in *.
  rewrite <- (insert_id h p t H) at 1. rewrite destroy_insert. reflexivity.
Qed.

Lemma destroy_dangling p w :
  heap w !! p = None -> swd_target_destroy (Some p) w = None.
Proof. intros H. unfold swd_target_destroy, bind, load. now rewrite H. Qed.

Lemma released_registered w p t :
  tracker_inv w -> heap w !! p = Some t -> resource_registered t = true ->
  released (g_resources w) (pio (t_pio t)) (sm (t_pio t)) =
  set_active_count (active_count (g_resources w) - 1)
    (with_owner (g_resources w) (pio (t_pio t)) (Z.to_nat (sm (t_pio t))) None).
Proof.
  intros [Hwf Hown Hreg Hcnt] Ht Hr. destruct (Hreg _ _ Ht Hr) as (Hb & Hi & Ho).
  unfold released. destruct (Z.leb_spec 4 (sm (t_pio t))) as [|_]; [lia|].
  pose proof (total_owned_release _ _ _ _ Hb Ho) as Hrel.
  pose proof (total_owned_le _ Hwf) as Hle.
  assert (Hac : active_count (with_owner (g_resources w) (pio (t_pio t))
                                (Z.to_nat (sm (t_pio t))) None)
                = active_count (g_resources w)).
  { unfold with_owner. destruct (_ =? pio0); [|destruct (_ =? pio1)]; reflexivity. }
  cbv zeta. rewrite Hac. destruct (Z.ltb_spec 0 (active_count (g_resources w))) as [Hpos|Hz].
  - rewrite uint_decr_small by lia. reflexivity.
  - exfalso. lia.
Qed.

Lemma inv_destroy w p t c' :
  tracker_inv w -> heap w !! p = Some t ->
  tracker_inv (mk_world (delete p (heap w)) (destroy_tracker t (g_resources w)) c') /\
  forall b i, b = pio0 \/ b = pio1 ->
              owners_of (destroy_tracker t (g_resources w)) b !! i <> Some (Some p).
Proof.
  intros Hinv Ht. pose proof Hinv as [Hwf Hown Hreg Hcnt].
  unfold destroy_tracker. destruct (resource_registered t) eqn:Hr.
  - rewrite (released_registered _ _ _ Hinv Ht Hr).
    destruct (Hreg _ _ Ht Hr) as (Hb & Hi & Ho).
    pose proof (owners_of_length _ _ Hwf Hb) as Hlen.
    assert (Hlt : (Z.to_nat (sm (t_pio t)) < length (owners_of (g_resources w) (pio (t_pio t))))%nat)
      by (apply lookup_lt_Some in Ho; exact Ho).
    assert (Hslot : forall b i q, b = pio0 \/ b = pio1 ->
      owners_of (with_owner (g_resources w) (pio (t_pio t)) (Z.to_nat (sm (t_pio t))) None) b !! i
        = Some (Some q) ->
      owners_of (g_resources w) b !! i = Some (Some q) /\ q <> p).
    { intros b i q Hbv Hq. rewrite owners_of_with_owner in Hq by assumption.
      assert (Hold : owners_of (g_resources w) b !! i = Some (Some q)).
      { destruct (decide (b = pio (t_pio t))) as [-> | Hne]; [|exact Hq].
        destruct (decide (i = Z.to_nat (sm (t_pio t)))) as [-> | Hj].
        - rewrite list_lookup_insert_eq in Hq by exact Hlt. discriminate.
        - rewrite list_lookup_insert_ne in Hq by congruence. exact Hq. }
      split; [exact Hold|]. intros ->.
      destruct (Hown _ _ _ Hbv Hold) as (t' & Ht' & _ & Hpio & _ & Hidx).
      rewrite Ht in Ht'. injection Ht' as <-. subst b i.
      rewrite decide_True in Hq by reflexivity.
      rewrite list_lookup_insert_eq in Hq by exact Hlt. discriminate. }
    split; [split|]; cbn [heap g_resources calls].
    + unfold tracker_wf. cbn [pio0_sm_owners pio1_sm_owners set_active_count].
      apply with_owner_wf, Hwf.
    + intros b i q Hbv Hq. rewrite owners_of_set_active_count in Hq.
      destruct (Hslot _ _ _ Hbv Hq) as [Hold Hne].
      destruct (Hown _ _ _ Hbv Hold) as (t' & Ht' & Hrest).
      exists t'. split; [|exact Hrest]. rewrite lookup_delete_ne by congruence. exact Ht'.
    + intros q t' Hq Hr'. rewrite owners_of_set_active_count.
      destruct (decide (q = p)) as [-> | Hne]; [rewrite lookup_delete_eq in Hq; discriminate|].
      rewrite lookup_delete_ne in Hq by congruence.
      destruct (Hreg _ _ Hq Hr') as (Hb' & Hi' & Ho').
      split; [exact Hb'|]. split; [exact Hi'|].
      rewrite owners_of_with_owner by assumption.
      destruct (decide (pio (t_pio t') = pio (t_pio t))) as [Heq | Hneq]; [|exact Ho'].
      rewrite list_lookup_insert_ne; [rewrite <- Heq; exact Ho'|].
      intros Hidx. rewrite Heq, <- Hidx, Ho in Ho'. congruence.
    + cbn [active_count set_active_count].
      change (total_owned (set_active_count _ ?g)) with (total_owned g).
      pose proof (total_owned_release _ _ _ _ Hb Ho). lia.
    + intros b i Hbv Hq. rewrite owners_of_set_active_count in Hq.
      destruct (Hslot _ _ _ Hbv Hq) as [_ Hne]. congruence.
  - assert (Hnot : forall b i q, b = pio0 \/ b = pio1 ->
      owners_of (g_resources w) b !! i = Some (Some q) -> q <> p).
    { intros b i q Hbv Hq ->. destruct (Hown _ _ _ Hbv Hq) as (t' & Ht' & Hr' & _).
      congruence. }
    split; [split|]; cbn [heap g_resources calls].
    + exact Hwf.
    + intros b i q Hbv Hq. destruct (Hown _ _ _ Hbv Hq) as (t' & Ht' & Hrest).
      exists t'. split; [|exact Hrest].
      rewrite lookup_delete_ne; [exact Ht'|]. intros ->. exact (Hnot _ _ _ Hbv Hq eq_refl).
    + intros q t' Hq Hr'.
      destruct (decide (q = p)) as [-> | Hne]; [rewrite lookup_delete_eq in Hq; discriminate|].
      rewrite lookup_delete_ne in Hq by congruence. exact (Hreg _ _ Hq Hr').
    + exact Hcnt.
    + intros b i Hbv Hq. exact (Hnot _ _ _ Hbv Hq eq_refl).
Qed.

(** ** What a returned result says about the call *)

Lemma scan_free_inv (owners : list target_ptr) n i w r w' :
  scan_free owners i n w = Some (r, w') ->
  w' = w /\ forall k, r = Some k -> (k < i + n)%nat /\ owners !! k = Some None.
Proof.
  revert i. induction n as [|n IH]; intros i H.
  - injection H as <- <-. split; [reflexivity|]. discriminate.
  - cbn [scan_free] in H. unfold bind, owner_at in H.
    destruct (owners !! i) as [o|] eqn:Ho; [|discriminate H].
    unfold ret at 1 in H. destruct o as [q|].
    + destruct (IH _ H) as [-> Hk]. split; [reflexivity|].
      intros k Hr. destruct (Hk k Hr). split; [lia|assumption].
    + injection H as <- <-. split; [reflexivity|].
      intros k Hk. injection Hk as <-. split; [lia|exact Ho].
Qed.

Lemma allocate_inv w r w' :
  allocate_pio_sm w = Some (r, w') ->
  w' = w /\
  (r.1 = SWD_OK -> exists b i, r.2 = Some (b, i) /\ slot_free (g_resources w) b i).
Proof.
  unfold allocate_pio_sm, get_resources. unfold bind at 1. unfold bind at 1.
  destruct (scan_free (pio0_sm_owners (g_resources w)) 0 4 w) as [[r0 w0]|] eqn:E0;
    [|discriminate].
  destruct (scan_free_inv _ _ _ _ _ _ E0) as [-> H0].
  destruct r0 as [k|].
  - intros H. injection H as <- <-. split; [reflexivity|]. intros _.
    destruct (H0 k eq_refl) as [Hk Hfree].
    exists pio0, (Z.of_nat k). split; [reflexivity|].
    split; [auto|]. split; [lia|]. unfold owners_of. now rewrite Z.eqb_refl, Nat2Z.id.
  - unfold bind.
    destruct (scan_free (pio1_sm_owners (g_resources w)) 0 4 w) as [[r1 w1]|] eqn:E1;
      [|discriminate].
    destruct (scan_free_inv _ _ _ _ _ _ E1) as [-> H1].
    destruct r1 as [k|]; intros H; injection H as <- <-; (split; [reflexivity|]).
    + intros _. destruct (H1 k eq_refl) as [Hk Hfree].
      exists pio1, (Z.of_nat k). split; [reflexivity|].
      split; [auto|]. split; [lia|]. unfold owners_of.
      now rewrite pio1_not_pio0, Z.eqb_refl, Nat2Z.id.
    + discriminate.
Qed.

Lemma register_inv p b i h g c ok w' :
  register_target (Some p) b i (mk_world h g c) = Some (ok, w') ->
  if ok then slot_free g b i /\ w' = mk_world h (claimed g b i p) c
  else w' = mk_world h g c.
Proof.
  unfold register_target, slot_free, owners_of, claimed, with_owner.
  destruct (Z.leb_spec 4 i) as [Hge|Hi]; [intros H; injection H as <- <-; reflexivity|].
  unfold bind, get_resources, owner_at. cbn [g_resources].
  destruct (Z.eqb_spec b pio0) as [-> | Hb0].
  - destruct (pio0_sm_owners g !! Z.to_nat i) as [[q|]|] eqn:Ho; try discriminate;
      intros H; injection H as <- <-; [reflexivity|]. auto.
  - destruct (Z.eqb_spec b pio1) as [-> | Hb1].
    + destruct (pio1_sm_owners g !! Z.to_nat i) as [[q|]|] eqn:Ho; try discriminate;
        intros H; injection H as <- <-; [reflexivity|]. auto.
    + intros H; injection H as <- <-; reflexivity.
Qed.

Lemma create_register_inv cfg p t h g c r w' :
  h !! p = None ->
  create_register cfg p (mk_world (<[p := t]> h) g c) = Some (r, w') ->
  (r = Some p /\ slot_free g (pio (t_pio t)) (sm (t_pio t)) /\
   w' = mk_world (<[p := finish_target cfg t]> h)
                 (claimed g (pio (t_pio t)) (sm (t_pio t)) p) c)
  \/ (r = None /\ w' = mk_world h g (c ++ [EvFree p])).
Proof.
  intros Hp H. pose proof H as H'. unfold create_register in H. rewrite bind_load in H.
  unfold bind at 1 in H.
  destruct (register_target _ _ _ _) as [[ok w1]|] eqn:Er; [|discriminate].
  apply register_inv in Er. destruct ok.
  - destruct Er as [Hfree ->]. left.
    rewrite (create_register_ok _ _ _ _ _ _ Hfree) in H'. injection H' as <- <-. auto.
  - subst w1. right. cbn [negb] in H.
    rewrite bind_set_error, bind_free_fresh in H by exact Hp.
    injection H as <- <-. auto.
Qed.

Lemma create_inv cfg p w r w' :
  swd_target_create (Some cfg) (Some p) w = Some (r, w') ->
  heap w !! p = None /\
  ((r = Some p /\ exists b i,
       slot_free (g_resources w) b i /\
       w' = mk_world (<[p := created_target cfg b i]> (heap w))
                     (claimed (g_resources w) b i p) (calls w))
   \/ (r = None /\ w' = mk_world (heap w) (g_resources w) (calls w ++ [EvFree p]))).
Proof.
  intros E. unfold swd_target_create in E.
  destruct (heap w !! p) as [t0|] eqn:Hp.
  { unfold bind, calloc in E. rewrite Hp in E. discriminate. }
  split; [reflexivity|].
  rewrite (bind_calloc _ _ _ Hp) in E. cbv beta iota in E. rewrite !bind_modify in E.
  destruct ((cfg_pio cfg =? SWD_PIO_AUTO) || (cfg_sm cfg =? SWD_SM_AUTO)).
  - unfold bind at 1 in E.
    destruct (allocate_pio_sm _) as [[a w1]|] eqn:Ea; [|discriminate].
    apply allocate_inv in Ea. destruct Ea as [-> Hok]. cbn [g_resources] in Hok.
    destruct (decide (a.1 = SWD_OK)) as [Heq | Hne].
    + rewrite (bool_decide_eq_true_2 _ Heq) in E. cbn [negb] in E.
      destruct (Hok Heq) as (b & i & Hsel & Hfree). rewrite Hsel in E.
      rewrite !bind_modify in E. apply create_register_inv in E; [|exact Hp].
      destruct E as [(-> & _ & ->) | (-> & ->)]; [left|right]; auto.
      split; [reflexivity|]. exists b, i. auto.
    + rewrite (bool_decide_eq_false_2 _ Hne) in E. cbn [negb] in E.
      rewrite bind_set_error, bind_free_fresh in E by exact Hp.
      injection E as <- <-. right. auto.
  - rewrite !bind_modify in E. apply create_register_inv in E; [|exact Hp].
    destruct E as [(-> & Hfree & ->) | (-> & ->)]; [left|right]; auto.
    split; [reflexivity|]. exists (cfg_pio cfg), (cfg_sm cfg). auto.
Qed.

Lemma inv_calls h g c c' :
  tracker_inv (mk_world h g c) -> tracker_inv (mk_world h g c').
Proof. intros [Hwf Hown Hreg Hcnt]. split; assumption. Qed.

Lemma inv_run_call c w w' :
  tracker_inv w -> run_call c w = Some (tt, w') -> tracker_inv w'.
Proof.
  intros Hinv H. destruct c as [[cfg|] [p|] | [p|]]; cbn [run_call] in H.
  - unfold bind at 1 in H.
    destruct (swd_target_create _ _ _) as [[r w1]|] eqn:E; [|discriminate].
    injection H as <-. apply create_inv in E.
    destruct E as [Hp [(-> & b & i & Hfree & ->) | (-> & ->)]].
    + apply inv_create; assumption.
    + destruct w as [h g c]. exact (inv_calls _ _ _ _ Hinv).
  - injection H as <-. exact Hinv.
  - injection H as <-. exact Hinv.
  - injection H as <-. exact Hinv.
  - destruct (heap w !! p) as [t|] eqn:Hp.
    + rewrite (destroy_live _ _ _ Hp) in H. injection H as <-.
      apply inv_destroy; assumption.
    + rewrite (destroy_dangling _ _ Hp) in H. discriminate.
  - injection H as <-. exact Hinv.
Qed.

Lemma inv_run_calls cs w w' :
  tracker_inv w -> run_calls cs w = Some (tt, w') -> tracker_inv w'.
Proof.
  revert w. induction cs as [|c cs IH]; intros w Hinv H.
  - injection H as <-. exact Hinv.
  - cbn [run_calls] in H. unfold bind at 1 in H.
    destruct (run_call c w) as [[[] w1]|] eqn:E; [|discriminate].
    exact (IH _ (inv_run_call _ _ _ Hinv E) H).
Qed.

Lemma slot_owner_Some g b i p :
  slot_owner g b i = Some p <->
  (b = pio0 \/ b = pio1) /\ owners_of g b !! i = Some (Some p).
Proof.
  unfold slot_owner, owners_of. split.
  - destruct (Z.eqb_spec b pio0) as [-> | H0].
    + destruct (_ !! i) as [o|]; cbn; [intros ->; auto | discriminate].
    + destruct (Z.eqb_spec b pio1) as [-> | H1].
      * destruct (_ !! i) as [o|]; cbn; [intros ->; auto | discriminate].
      * rewrite lookup_nil. discriminate.
  - intros [_ ->]. reflexivity.
Qed.

(** C2: after any sequence of [swd_target_create] and [swd_target_destroy]
    calls from the zero-initialised tracker: the owner of a slot is a live
    session whose own [pio] and [sm] name that slot, and no two live
    registered sessions name the same slot; [active_count] is the number of
    owned slots; a live session has [resource_registered] set iff some slot
    maps to it; destroying a live session succeeds and leaves no slot that
    maps to it. *)
Theorem tracker_invariants (cs : list lifecycle_call) (w : world) :
  run_calls cs world_init = Some (tt, w) ->
  (forall b i p, slot_owner (g_resources w) b i = Some p ->
     exists t, heap w !! p = Some t /\ pio (t_pio t) = b /\ Z.to_nat (sm (t_pio t)) = i) /\
  (forall p1 t1 p2 t2,
     heap w !! p1 = Some t1 -> heap w !! p2 = Some t2 ->
     resource_registered t1 = true -> resource_registered t2 = true ->
     pio (t_pio t1) = pio (t_pio t2) -> sm (t_pio t1) = sm (t_pio t2) -> p1 = p2) /\
  active_count (g_resources w) = Z.of_nat (total_owned (g_resources w)) /\
  (forall p t, heap w !! p = Some t ->
     (resource_registered t = true <-> exists b i, slot_owner (g_resources w) b i = Some p)) /\
  (forall p, is_Some (heap w !! p) ->
     exists w', swd_target_destroy (Some p) w = Some (tt, w') /\
                heap w' !! p = None /\
                forall b i, slot_owner (g_resources w') b i <> Some p).
Proof.
  intros Hrun. pose proof (inv_run_calls _ _ _ inv_init Hrun) as Hinv.
  pose proof Hinv as [Hwf Hown Hreg Hcnt].
  split; [|split; [|split; [|split]]].
  - intros b i p Hs. apply slot_owner_Some in Hs. destruct Hs as [Hb Ho].
    destruct (Hown _ _ _ Hb Ho) as (t & Ht & _ & Hpio & _ & Hidx). eauto.
  - intros p1 t1 p2 t2 H1 H2 R1 R2 Hpio Hsm.
    destruct (Hreg _ _ H1 R1) as (_ & _ & O1). destruct (Hreg _ _ H2 R2) as (_ & _ & O2).
    rewrite Hpio, Hsm in O1. congruence.
  - exact Hcnt.
  - intros p t Ht. split.
    + intros Hr. destruct (Hreg _ _ Ht Hr) as (Hb & _ & Ho).
      exists (pio (t_pio t)), (Z.to_nat (sm (t_pio t))). apply slot_owner_Some. auto.
    + intros (b & i & Hs). apply slot_owner_Some in Hs. destruct Hs as [Hb Ho].
      destruct (Hown _ _ _ Hb Ho) as (t' & Ht' & Hr & _). congruence.
  - intros p [t Ht]. eexists. split; [exact (destroy_live _ _ _ Ht)|].
    cbn [heap g_resources]. split; [apply lookup_delete_eq|].
    intros b i Hs. apply slot_owner_Some in Hs. destruct Hs as [Hb Ho].
    exact (proj2 (inv_destroy _ _ _ [] Hinv Ht) _ _ Hb Ho).
Qed.

(** The invariants at the world five calls lead to: three creations, of which
    the third asks for an owned slot, a destruction, and a creation that is
    given the freed block again. *)
Lemma tracker_invariants_witness :
  run_calls demo_calls world_init = Some (tt, demo_world) /\
  active_count (g_resources demo_world) = Z.of_nat (total_owned (g_resources demo_world)).
Proof.
  assert (H : run_calls demo_calls world_init = Some (tt, demo_world)) by (vm_compute; reflexivity).
  split; [exact H|]. exact (proj1 (proj2 (proj2 (tracker_invariants _ _ H)))).
Defined.

(** C1, as stated, fails: a configuration with SWCLK and SWDIO on one pin is
    given a handle, and so is one with a frequency of 0 kHz. *)
Lemma create_accepts_invalid_config :
  ~ (forall cfg mem w r w',
       cfg_pin_swclk cfg = cfg_pin_swdio cfg ->
       swd_target_create (Some cfg) mem w = Some (r, w') -> r = None) /\
  ~ (forall cfg mem w r w',
       cfg_freq_khz cfg = 0 ->
       swd_target_create (Some cfg) mem w = Some (r, w') -> r = None).
Proof.
  split; intros H.
  - assert (E : swd_target_create (Some cfg_same_pins) (Some 1%positive) world_init
                = Some (Some 1%positive, world_same_pins))
      by (vm_compute; reflexivity).
    specialize (H cfg_same_pins _ _ _ _ eq_refl E). discriminate H.
  - assert (E : swd_target_create (Some cfg_zero_freq) (Some 1%positive) world_init
                = Some (Some 1%positive, world_zero_freq))
      by (vm_compute; reflexivity).
    specialize (H cfg_zero_freq _ _ _ _ eq_refl E). discriminate H.
Qed.

(** C1, amended: [swd_target_create] checks neither the pins nor the
    frequency. It returns NULL for a null config and for a failed allocation;
    otherwise it returns the new handle exactly when a slot can be registered
    (some slot free in auto mode, the requested slot one of the 2x4 and
    unowned otherwise), whatever the pins and the frequency, and stores them in
    the session unchanged. *)
Theorem create_checks_slot_only (cfg : swd_config_t) (p : addr) (w : world) :
  tracker_wf (g_resources w) -> heap w !! p = None ->
  swd_target_create None (Some p) w = Some (None, w) /\
  swd_target_create (Some cfg) None w = Some (None, w) /\
  exists r w',
    swd_target_create (Some cfg) (Some p) w = Some (r, w') /\
    (r = Some p <-> slot_available cfg (g_resources w)) /\
    (r = None <-> ~ slot_available cfg (g_resources w)) /\
    (r = Some p ->
     exists t, heap w' !! p = Some t /\
               pin_swclk (t_pio t) = cfg_pin_swclk cfg /\
               pin_swdio (t_pio t) = cfg_pin_swdio cfg /\
               freq_khz (t_pio t) = cfg_freq_khz cfg).
Proof.
  intros Hwf Hp. split; [reflexivity|]. split; [reflexivity|].
  destruct (create_cases cfg p w Hwf Hp)
    as [(b & i & Hfree & Hsel & Hav & E) | (Hnav & E)]; rewrite E; eexists _, _;
    (split; [reflexivity|]).
  - split; [tauto|]. split; [split; [discriminate | tauto]|].
    intros _. eexists. cbn [heap]. rewrite lookup_insert_eq. split; [reflexivity|].
    cbn. auto.
  - split; [split; [discriminate | tauto]|]. split; [tauto|]. discriminate.
Qed.

(** The configuration with both signals on pin 5, on the initial world. *)
Lemma create_checks_slot_only_witness :
  exists r w',
    swd_target_create (Some cfg_same_pins) (Some 1%positive) world_init = Some (r, w') /\
    (r = Some 1%positive <-> slot_available cfg_same_pins (g_resources world_init)).
Proof.
  destruct (create_checks_slot_only cfg_same_pins 1%positive world_init)
    as (_ & _ & r & w' & E & Hiff & _).
  - split; reflexivity.
  - reflexivity.
  - exists r, w'. split; assumption.
Defined.

(** C3: a successful [swd_target_create] makes no outgoing call and returns
    a session with [connected] false, the line engine not initialised, the
    cached apsel and bank both 0xFF, [powered] false, and two harts with
    [halted], [halt_state_known] and [cache_valid] all false. *)
Theorem create_returns_disconnected
    (config : option swd_config_t) (mem : target_ptr) (w : world) (p : addr) (w' : world) :
  swd_target_create config mem w = Some (Some p, w') ->
  calls w' = calls w /\
  exists t, heap w' !! p = Some t /\
    connected t = false /\
    pio_initialized (t_pio t) = false /\
    current_apsel (dap t) = 0xFF /\ current_bank (dap t) = 0xFF /\
    powered (dap t) = false /\
    length (harts (rp2350 t)) = RP2350_NUM_HARTS /\
    forall h hs, harts (rp2350 t) !! h = Some hs ->
      halted hs = false /\ halt_state_known hs = false /\ cache_valid hs = false.
Proof.
  intros E. destruct config as [cfg|]; [|discriminate E].
  destruct mem as [q|]; [|discriminate E].
  apply create_inv in E. destruct E as [Hq [(Hr & b & i & Hfree & ->) | (Hr & _)]];
    [|discriminate Hr].
  injection Hr as <-. cbn [heap calls]. split; [reflexivity|].
  exists (created_target cfg b i). rewrite lookup_insert_eq. split; [reflexivity|].
  cbn [created_target connected t_pio pio_initialized dap current_apsel current_bank powered
       rp2350 harts].
  repeat (split; [reflexivity|]).
  intros h hs Hh. destruct h as [|[|h]]; cbn in Hh; [| |discriminate Hh];
    injection Hh as <-; auto.
Qed.

(** The first creation on the initial world. *)
Lemma create_returns_disconnected_witness :
  swd_target_create (Some cfg_gpio23) (Some 1%positive) world_init
    = Some (Some 1%positive, world_created) /\
  exists t, heap world_created !! 1%positive = Some t /\ connected t = false.
Proof.
  assert (E : swd_target_create (Some cfg_gpio23) (Some 1%positive) world_init
              = Some (Some 1%positive, world_created)) by (vm_compute; reflexivity).
  split; [exact E|].
  destruct (create_returns_disconnected _ _ _ _ _ E) as (_ & t & Ht & Hc & _).
  exists t. split; [exact Ht | exact Hc].
Defined.

(** C10: [allocate_pio_sm] leaves the world as it was and answers with the
    lowest unowned state machine of PIO0, else the lowest unowned one of PIO1,
    else [SWD_ERROR_RESOURCE_BUSY]; it is busy exactly when all eight slots are
    owned; the slot it answers is still unowned afterwards, and it is
    [register_target] that records the owner. *)
Theorem allocate_pio_sm_first_fit (w : world) :
  tracker_wf (g_resources w) ->
  exists r,
    allocate_pio_sm w = Some (r, w) /\
    ((exists i, first_free (pio0_sm_owners (g_resources w)) i /\
                r = (SWD_OK, Some (pio0, Z.of_nat i))) \/
     (all_owned (pio0_sm_owners (g_resources w)) /\
      exists i, first_free (pio1_sm_owners (g_resources w)) i /\
                r = (SWD_OK, Some (pio1, Z.of_nat i))) \/
     (all_owned (pio0_sm_owners (g_resources w)) /\
      all_owned (pio1_sm_owners (g_resources w)) /\
      r = (SWD_ERROR_RESOURCE_BUSY, None))) /\
    (r.1 = SWD_ERROR_RESOURCE_BUSY <->
     all_owned (pio0_sm_owners (g_resources w)) /\
     all_owned (pio1_sm_owners (g_resources w))) /\
    (forall b i p, r = (SWD_OK, Some (b, i)) ->
       slot_owner (g_resources w) b (Z.to_nat i) = None /\
       exists w', register_target (Some p) b i w = Some (true, w') /\
                  slot_owner (g_resources w') b (Z.to_nat i) = Some p).
Proof.
  intros Hwf. destruct (allocate_cases w Hwf) as [r [E Hr]].
  exists r. split; [exact E|]. split; [exact Hr|]. pose proof Hwf as [H0 H1]. split.
  - split.
    + intros Hbusy.
      destruct Hr as [(i & _ & ->) | [(_ & i & _ & ->) | (Ha0 & Ha1 & _)]];
        [discriminate Hbusy | discriminate Hbusy | auto].
    + intros [Ha0 Ha1].
      destruct Hr as [(i & Hff & _) | [(_ & i & Hff & _) | (_ & _ & ->)]].
      * destruct (first_free_not_all _ _ H0 Hff Ha0).
      * destruct (first_free_not_all _ _ H1 Hff Ha1).
      * reflexivity.
  - intros b i p ->.
    assert (Hfree : slot_free (g_resources w) b i).
    { destruct Hr as [(k & Hff & Heq) | [(_ & k & Hff & Heq) | (_ & _ & Heq)]];
        [injection Heq as -> -> | injection Heq as -> -> | discriminate Heq].
      - exact (proj1 (first_free_slot_free _ k Hwf) Hff).
      - exact (proj2 (first_free_slot_free _ k Hwf) Hff). }
    pose proof Hfree as (Hb & Hi & Ho). split.
    + unfold slot_owner. now rewrite Ho.
    + destruct w as [h g c]. rewrite (register_target_free _ _ _ _ _ _ Hfree).
      eexists. split; [reflexivity|]. cbn [g_resources]. apply slot_owner_Some.
      split; [exact Hb|]. unfold claimed. rewrite owners_of_set_active_count.
      rewrite owners_of_with_owner by assumption. rewrite decide_True by reflexivity.
      apply list_lookup_insert_eq. apply lookup_lt_Some in Ho. exact Ho.
Qed.

(** With SM0 of PIO0 and SM2 of PIO1 owned, the answer is SM1 of PIO0. *)
Lemma allocate_pio_sm_first_fit_witness :
  tracker_wf (g_resources demo_world) /\
  allocate_pio_sm demo_world = Some ((SWD_OK, Some (pio0, 1)), demo_world).
Proof.
  assert (Hwf : tracker_wf (g_resources demo_world)) by (split; reflexivity).
  split; [exact Hwf|].
  destruct (allocate_pio_sm_first_fit demo_world Hwf) as (r & E & _).
  rewrite E. vm_compute in E. injection E as <-. reflexivity.
Defined.

(** C4: [swd_read_idcode] answers [{SWD_ERROR_NOT_CONNECTED, 0}] for a null
    handle and for a session that is not connected (recording the error in the
    session), and [{SWD_OK, idcode}] with the stored IDCODE for a connected
    session, which it leaves unchanged. *)
Theorem swd_read_idcode_result :
  (forall w, swd_read_idcode None w = Some (mk_result SWD_ERROR_NOT_CONNECTED 0, w)) /\
  (forall w p t, heap w !! p = Some t -> connected t = false ->
     swd_read_idcode (Some p) w =
     Some (mk_result SWD_ERROR_NOT_CONNECTED 0,
           mk_world (<[p := set_error_detail "Not connected"
                              (set_last_error SWD_ERROR_NOT_CONNECTED t)]> (heap w))
                    (g_resources w) (calls w))) /\
  (forall w p t, heap w !! p = Some t -> connected t = true ->
     swd_read_idcode (Some p) w = Some (mk_result SWD_OK (idcode t), w)).
Proof.
  split; [reflexivity|]. split.
  - intros [h g c] p t Ht Hc. cbn [heap g_resources calls] in *.
    unfold swd_read_idcode. rewrite <- (insert_id h p t Ht) at 1.
    rewrite bind_load, Hc. cbn [negb]. rewrite bind_set_error. reflexivity.
  - intros w p t Ht Hc. unfold swd_read_idcode, bind, load. rewrite Ht, Hc. reflexivity.
Qed.

(** Assignments to fields other than the slot and the registration flag keep
    the invariant. *)
Lemma inv_field_update p t t' h g c :
  t_pio t' = t_pio t -> resource_registered t' = resource_registered t ->
  tracker_inv (mk_world (<[p := t]> h) g c) ->
  tracker_inv (mk_world (<[p := t']> h) g c).
Proof.
  intros Hpio Hr [Hwf Hown Hreg Hcnt]. cbn [heap g_resources] in *. split; cbn [heap g_resources].
  - exact Hwf.
  - intros b i q Hb Hq. destruct (Hown _ _ _ Hb Hq) as (tq & Htq & Hrest).
    destruct (decide (q = p)) as [-> | Hne].
    + rewrite lookup_insert_eq in Htq. injection Htq as <-.
      exists t'. rewrite lookup_insert_eq, Hpio, Hr. split; [reflexivity | exact Hrest].
    + rewrite lookup_insert_ne in Htq by congruence.
      exists tq. rewrite lookup_insert_ne by congruence. split; [exact Htq | exact Hrest].
  - intros q tq Hq Hrq. destruct (decide (q = p)) as [-> | Hne].
    + rewrite lookup_insert_eq in Hq. injection Hq as <-. rewrite Hpio. rewrite Hr in Hrq.
      apply (Hreg p t); [apply lookup_insert_eq | exact Hrq].
    + rewrite lookup_insert_ne in Hq by congruence.
      apply (Hreg q tq); [rewrite lookup_insert_ne by congruence; exact Hq | exact Hrq].
  - exact Hcnt.
Qed.

(** C6, as stated, fails: destroying a handle a second time reads the
    object the first call freed. *)
Lemma destroy_twice_faults :
  swd_target_create (Some cfg_gpio23) (Some 1%positive) world_init
    = Some (Some 1%positive, world_created) /\
  swd_target_destroy (Some 1%positive) world_created = Some (tt, world_destroyed) /\
  swd_target_destroy (Some 1%positive) world_destroyed = None.
Proof.
  split; [vm_compute; reflexivity|]. split; vm_compute; reflexivity.
Qed.

(** C6, amended: [swd_target_destroy] is a no-op on a null handle; on a live
    registered session it disconnects first if the session is connected, then
    releases the slot, then frees the object, after which no slot maps to the
    session and the count is one less; a handle that is not live (already
    destroyed) is not detected: the call reads freed memory. *)
Theorem swd_target_destroy_steps :
  (forall w, swd_target_destroy None w = Some (tt, w)) /\
  (forall w p t,
     tracker_inv w -> heap w !! p = Some t -> resource_registered t = true ->
     exists w',
       swd_target_destroy (Some p) w = Some (tt, w') /\
       calls w' = calls w ++ (if connected t then [EvDisconnect p] else [])
                          ++ [EvRelease (pio (t_pio t)) (sm (t_pio t)); EvFree p] /\
       heap w' = delete p (heap w) /\
       (forall b i, slot_owner (g_resources w') b i <> Some p) /\
       active_count (g_resources w') = active_count (g_resources w) - 1) /\
  (forall w p, heap w !! p = None -> swd_target_destroy (Some p) w = None).
Proof.
  split; [reflexivity|]. split; [|intros w p Hp; exact (destroy_dangling p w Hp)].
  intros w p t Hinv Ht Hr. eexists. split; [exact (destroy_live _ _ _ Ht)|].
  cbn [heap g_resources calls].
  destruct (inv_registered _ Hinv _ _ Ht Hr) as (Hb & Hi & Ho).
  split; [|split; [reflexivity|split]].
  - unfold destroy_calls. rewrite Hr.
    destruct (Z.leb_spec 4 (sm (t_pio t))) as [|_]; [lia|]. reflexivity.
  - intros b i Hs. apply slot_owner_Some in Hs. destruct Hs as [Hbv Hq].
    exact (proj2 (inv_destroy _ _ _ [] Hinv Ht) _ _ Hbv Hq).
  - unfold destroy_tracker. rewrite Hr, (released_registered _ _ _ Hinv Ht Hr). reflexivity.
Qed.

(** The tracker invariant holds of the connected example world. *)
Lemma world_connected_inv : tracker_inv world_connected.
Proof.
  apply (inv_field_update 1%positive (created_target cfg_gpio23 pio0 0) target_connected
           ∅ (g_resources world_created) (calls world_created)); [reflexivity..|].
  apply (inv_run_calls [CallCreate (Some cfg_gpio23) (Some 1%positive)] world_init);
    [exact inv_init | vm_compute; reflexivity].
Qed.

(** Destroying a connected session: disconnect, release, free. *)
Lemma swd_target_destroy_steps_witness :
  exists w',
    swd_target_destroy (Some 1%positive) world_connected = Some (tt, w') /\
    calls w' = [EvDisconnect 1%positive; EvRelease pio0 0; EvFree 1%positive].
Proof.
  destruct (proj1 (proj2 swd_target_destroy_steps) world_connected 1%positive target_connected
              world_connected_inv) as (w' & E & Hc & _).
  - vm_compute. reflexivity.
  - reflexivity.
  - exists w'. split; [exact E | exact Hc].
Defined.

(** A connected session answers its IDCODE; a created one is not connected. *)
Lemma swd_read_idcode_result_witness :
  swd_read_idcode (Some 1%positive) world_connected
    = Some (mk_result SWD_OK 0x4c013477, world_connected) /\
  exists w', swd_read_idcode (Some 1%positive) world_created
    = Some (mk_result SWD_ERROR_NOT_CONNECTED 0, w').
Proof.
  split.
  - apply (proj2 (proj2 swd_read_idcode_result) world_connected 1%positive target_connected).
    + vm_compute. reflexivity.
    + reflexivity.
  - eexists.
    apply (proj1 (proj2 swd_read_idcode_result) world_created 1%positive
             (created_target cfg_gpio23 pio0 0)).
    + vm_compute. reflexivity.
    + reflexivity.
Defined.

(** ** The driver on the wire *)

















Section TraceFacts.

Variable retire : hart_hw -> gmap Z Z -> hart_hw * gmap Z Z.

Variable U : Type.











(** *** A trace that meets no error *)


Lemma extends_clean_trans s s1 s2 :
  extends_clean s s1 -> extends_clean s1 s2 -> extends_clean s s2.
Proof.
  intros [Hl1 (new1 & Hw1 & Hc1)] [Hl2 (new2 & Hw2 & Hc2)]. split; [auto|].
  exists (new1 ++ new2). split.
  - rewrite Hw2, Hw1. now rewrite app_assoc.
  - apply Forall_app. auto.
Qed.

Lemma stops_failed_after s s1 s2 :
  extends_clean s s1 -> stops_failed s1 s2 -> stops_failed s s2.
Proof.
  intros [Hl1 (new1 & Hw1 & Hc1)] [Hl2 (pre & op & f & Hw2 & Hc2)]. split; [auto|].
  exists (new1 ++ pre), op, f. split.
  - rewrite Hw2, Hw1. now rewrite <- !app_assoc.
  - apply Forall_app. auto.
Qed.





Lemma completes_bind {A B} (m : D A) (k : A -> D B) s Q R :
  completes m s Q -> (forall a s1, Q a s1 -> completes (k a) s1 R) ->
  completes (dbind m k) s R.
Proof.
  unfold completes, dbind. intros Hm Hk.
  destruct (m s) as [[e|a] s1]; [exact Hm|].
  destruct Hm as [Hq Hext]. specialize (Hk a s1 Hq).
  destruct (k a s1) as [[e|b] s2].
  - exact (stops_failed_after _ _ _ Hext Hk).
  - destruct Hk as [Hr Hext2]. split; [exact Hr|].
    exact (extends_clean_trans _ _ _ Hext Hext2).
Qed.



Tactic Notation "cbind" constr(Q) "as" simple_intropattern(a) simple_intropattern(s)
    simple_intropattern(H) :=
  apply (completes_bind _ _ _ Q); [|intros a s H].





















End TraceFacts.

(** C9: for a hart [h] and any value [v], [write_reg(h, 0, v)] succeeds and
    leaves the session as it was, the following [read_reg(h, 0)] returns
    [{SWD_OK, 0}], and neither puts a transaction on the wire. *)
Theorem x0_hardwired_zero (h : nat) (v : Z) (s : session) :
  (h < RP2350_NUM_HARTS)%nat ->
  rp2350_write_reg h 0 v s = (SWD_OK, s) /\
  rp2350_read_reg h 0 (rp2350_write_reg h 0 v s).2 = (mk_result SWD_OK 0, s) /\
  wire (rp2350_read_reg h 0 (rp2350_write_reg h 0 v s).2).2 = wire s.
Proof.
  intros Hh.
  assert (Hw : rp2350_write_reg h 0 v s = (SWD_OK, s)).
  { unfold rp2350_write_reg, as_error, write_reg_body, dbind, dget.
    apply Nat.ltb_lt in Hh. rewrite Hh. reflexivity. }
  assert (Hr : rp2350_read_reg h 0 s = (mk_result SWD_OK 0, s)).
  { unfold rp2350_read_reg, as_result, read_reg_body, dbind, dget.
    apply Nat.ltb_lt in Hh. rewrite Hh. reflexivity. }
  rewrite Hw. cbn [snd]. rewrite Hr. auto.
Qed.

(** ** Halting *)

Lemma dmi_inv op s r s' :
  dmi op s = (r, s') ->
  target s' = target s /\ hw s' = hw s /\ poll_budget s' = poll_budget s /\
  forall e, err_of r = Some e -> exists f, e = fault_error f.
Proof.
  unfold dmi. destruct (link s) as [[[|n] f]|]; intros H; injection H as <- <-;
    cbn [target hw poll_budget err_of]; repeat split; try discriminate.
  intros e He. injection He as <-. eauto.
Qed.

Lemma poll_halted_inv h n : forall s r s',
  poll_halted h n s = (r, s') ->
  target s' = target s /\ forall e, err_of r = Some e -> exists f, e = fault_error f.
Proof.
  induction n as [|n IH]; intros s r s' H.
  - injection H as <- <-. split; [reflexivity | discriminate].
  - cbn [poll_halted] in H. unfold dbind at 1 in H.
    destruct (dmi (DmiRead DM_DMSTATUS) s) as [[e|[]] s1] eqn:E1;
      destruct (dmi_inv _ _ _ _ E1) as (Ht1 & _ & _ & Hf1).
    + injection H as <- <-. split; [exact Ht1 | intros e' He'; apply Hf1; exact He'].
    + unfold dbind at 1, dmodify at 1 in H. unfold dbind at 1, dget at 1 in H.
      destruct (hart_is_halted h _).
      * injection H as <- <-. split; [exact Ht1 | discriminate].
      * destruct (IH _ _ _ H) as [Ht Hf]. split; [|exact Hf].
        rewrite Ht. exact Ht1.
Qed.

Lemma report_fields e s :
  harts (rp2350 (target (report e s))) = harts (rp2350 (target s)) /\
  initialized (rp2350 (target (report e s))) = initialized (rp2350 (target s)) /\
  hw (report e s) = hw s /\ memory (report e s) = memory s /\
  wire (report e s) = wire s /\ link (report e s) = link s /\
  poll_budget (report e s) = poll_budget s.
Proof. unfold report. destruct (bool_decide _); repeat split. Qed.

Lemma halt_known h s hs :
  initialized (rp2350 (target s)) = true -> (h < RP2350_NUM_HARTS)%nat ->
  harts (rp2350 (target s)) !! h = Some hs ->
  halt_state_known hs = true -> halted hs = true ->
  rp2350_halt h s = (SWD_ERROR_ALREADY_HALTED, report SWD_ERROR_ALREADY_HALTED s).
Proof.
  intros Hi Hh Hs Hk Hl. unfold rp2350_halt, as_error, halt_body, dbind, dget.
  apply Nat.ltb_lt in Hh. rewrite Hi, Hh, Hs, Hk, Hl. reflexivity.
Qed.

Lemma halt_success h s e s1 :
  rp2350_halt h s = (e, s1) -> e = SWD_OK \/ e = SWD_ERROR_ALREADY_HALTED ->
  initialized (rp2350 (target s1)) = true /\ (h < RP2350_NUM_HARTS)%nat /\
  exists hs, harts (rp2350 (target s1)) !! h = Some hs /\
             halt_state_known hs = true /\ halted hs = true.
Proof.
  unfold rp2350_halt, as_error, halt_body. unfold dbind at 1, dget at 1.
  destruct (initialized (rp2350 (target s))) eqn:Hi; cbn [negb];
    [|intros H; injection H as <- <-; intros [?|?]; discriminate].
  destruct (h <? RP2350_NUM_HARTS)%nat eqn:Hh; cbn [negb];
    [|intros H; injection H as <- <-; intros [?|?]; discriminate].
  apply Nat.ltb_lt in Hh.
  destruct (harts (rp2350 (target s)) !! h) as [hs|] eqn:Hs;
    [|intros H; injection H as <- <-; intros [?|?]; discriminate].
  destruct (halt_state_known hs && halted hs) eqn:Hkh.
  { intros H; injection H as <- <-. intros _.
    destruct (report_fields SWD_ERROR_ALREADY_HALTED s) as (Hharts & Hinit & _).
    rewrite Hinit, Hharts. apply andb_prop in Hkh. eauto 6. }
  assert (Hnot : forall f, fault_error f = SWD_OK \/ fault_error f = SWD_ERROR_ALREADY_HALTED
                           -> False) by (intros f [?|?]; destruct f; discriminate).
  unfold dbind at 1.
  destruct (dmi _ s) as [[e1|[]] sa] eqn:E1; destruct (dmi_inv _ _ _ _ E1) as (Ta & _ & Ba & Fa).
  { intros H; injection H as <- <-. intros He. destruct (Fa _ eq_refl) as [f ->].
    destruct (Hnot _ He). }
  unfold dbind at 1, dmodify at 1. unfold dbind at 1.
  destruct (poll_halted h (poll_budget s) _) as [[e2|ok] sb] eqn:E2;
    destruct (poll_halted_inv _ _ _ _ _ E2) as (Tb & Fb); cbn [target set_hw] in Tb.
  { intros H; injection H as <- <-. intros He. destruct (Fb _ eq_refl) as [f ->].
    destruct (Hnot _ He). }
  destruct ok; [|intros H; injection H as <- <-; intros [?|?]; discriminate].
  unfold dbind at 1.
  destruct (dmi _ sb) as [[e3|[]] sc] eqn:E3; destruct (dmi_inv _ _ _ _ E3) as (Tc & _ & _ & Fc).
  { intros H; injection H as <- <-. intros He. destruct (Fc _ eq_refl) as [f ->].
    destruct (Hnot _ He). }
  unfold dbind at 1, dmodify. intros H; injection H as <- <-. intros _.
  cbn [set_drv_hart set_target set_hw target rp2350 set_rp2350 set_harts harts initialized].
  rewrite Tc, Tb, Ta. split; [exact Hi|]. split; [exact Hh|].
  eexists. rewrite list_lookup_alter_eq, Hs. cbn. auto.
Qed.

(** C7: when [halt(h)] succeeds (with [SWD_OK] or the marker
    [SWD_ERROR_ALREADY_HALTED]), a second [halt(h)] right after returns
    [SWD_ERROR_ALREADY_HALTED], issues no transaction, and leaves the per-hart
    state of the session, the harts and the memory as the first call left
    them. *)
Theorem halt_idempotent (h : nat) (s : session) :
  (rp2350_halt h s).1 = SWD_OK \/ (rp2350_halt h s).1 = SWD_ERROR_ALREADY_HALTED ->
  let s1 := (rp2350_halt h s).2 in
  let r2 := rp2350_halt h s1 in
  r2.1 = SWD_ERROR_ALREADY_HALTED /\
  harts (rp2350 (target r2.2)) = harts (rp2350 (target s1)) /\
  hw r2.2 = hw s1 /\
  memory r2.2 = memory s1 /\
  wire r2.2 = wire s1.
Proof.
  intros Hok. cbv zeta.
  destruct (rp2350_halt h s) as [e s1] eqn:E1. cbn [fst snd] in *.
  destruct (halt_success _ _ _ _ E1 Hok) as (Hi & Hh & hs & Hs & Hk & Hl).
  rewrite (halt_known _ _ _ Hi Hh Hs Hk Hl). cbn [fst snd].
  destruct (report_fields SWD_ERROR_ALREADY_HALTED s1) as (Hharts & _ & Hhw & Hm & Hw & _).
  auto.
Qed.

(** Halting hart 0 of the example session twice. *)
Lemma halt_idempotent_witness :
  (rp2350_halt 0 demo_session).1 = SWD_OK /\
  (rp2350_halt 0 (rp2350_halt 0 demo_session).2).1 = SWD_ERROR_ALREADY_HALTED.
Proof.
  assert (H : (rp2350_halt 0 demo_session).1 = SWD_OK) by (vm_compute; reflexivity).
  split; [exact H|].
  exact (proj1 (halt_idempotent 0 demo_session (or_introl H))).
Defined.

(** Writing 0xDEADBEEF to x0 of hart 1 and reading it back. *)
Lemma x0_hardwired_zero_witness :
  rp2350_read_reg 1 0 (rp2350_write_reg 1 0 0xDEADBEEF demo_session).2
  = (mk_result SWD_OK 0, demo_session).
Proof.
  refine (proj1 (proj2 (x0_hardwired_zero 1 0xDEADBEEF demo_session _))).
  unfold RP2350_NUM_HARTS. lia.
Defined.


(** * Further properties of swd.c *)

Lemma slot_owner_with_owner g b k o b' j :
  b = pio0 \/ b = pio1 -> (k < length (owners_of g b))%nat ->
  slot_owner (with_owner g b k o) b' j =
  if decide (b' = b /\ j = k) then o else slot_owner g b' j.
Proof.
  intros Hb Hk. unfold slot_owner.
  destruct (decide (b' = pio0 \/ b' = pio1)) as [Hb' | Hb'].
  - rewrite owners_of_with_owner by assumption.
    destruct (decide (b' = b)) as [-> | Hne].
    + destruct (decide (j = k)) as [-> | Hj].
      * rewrite decide_True by auto. now rewrite list_lookup_insert_eq.
      * rewrite decide_False by tauto. now rewrite list_lookup_insert_ne by congruence.
    + rewrite decide_False by tauto. reflexivity.
  - rewrite decide_False by (intros [-> _]; tauto).
    assert (Hnil : forall g', owners_of g' b' = []).
    { intros g'. unfold owners_of.
      destruct (Z.eqb_spec b' pio0); [tauto|]. destruct (Z.eqb_spec b' pio1); [tauto|].
      reflexivity. }
    now rewrite !Hnil.
Qed.

Lemma slot_owner_claimed g b i p b' j :
  slot_free g b i ->
  slot_owner (claimed g b i p) b' j =
  if decide (b' = b /\ j = Z.to_nat i) then Some p else slot_owner g b' j.
Proof.
  intros (Hb & Hi & Ho). unfold claimed.
  change (slot_owner (set_active_count ?n ?g') b' j) with (slot_owner g' b' j).
  apply slot_owner_with_owner; [exact Hb|]. apply lookup_lt_Some in Ho. exact Ho.
Qed.

Lemma slot_free_owner g b i : slot_free g b i -> slot_owner g b (Z.to_nat i) = None.
Proof. intros (_ & _ & Ho). unfold slot_owner. now rewrite Ho. Qed.

Lemma released_claimed g b i p :
  slot_free g b i -> 0 <= active_count g < 8 -> released (claimed g b i p) b i = g.
Proof.
  intros (Hb & Hi & Ho) Hn. unfold released, claimed.
  destruct (Z.leb_spec 4 i) as [|_]; [lia|]. cbv zeta.
  assert (Hc : forall g', active_count
      (with_owner (set_active_count (uint_incr (active_count g)) g') b (Z.to_nat i) None)
      = active_count g + 1).
  { intros g'. unfold with_owner. rewrite <- (uint_incr_small (active_count g)) by lia.
    destruct (b =? pio0); [|destruct (b =? pio1)]; reflexivity. }
  rewrite Hc. destruct (Z.ltb_spec 0 (active_count g + 1)) as [_|]; [|lia].
  rewrite uint_decr_small by lia. replace (active_count g + 1 - 1) with (active_count g) by lia.
  unfold owners_of, with_owner in *. destruct g as [l0 l1 n]. cbn [active_count] in *.
  destruct Hb as [-> | ->]; rewrite ?Z.eqb_refl, ?pio1_not_pio0 in *;
    cbn [set_pio0_owner set_pio1_owner set_active_count pio0_sm_owners pio1_sm_owners
         active_count] in *;
    unfold set_active_count, set_pio0_owner, set_pio1_owner;
    cbn [pio0_sm_owners pio1_sm_owners active_count];
    rewrite list_insert_insert_eq, (list_insert_id _ _ _ Ho); reflexivity.
Qed.

(** X1: in a consistent world, destroying the handle a creation has just
    returned succeeds and leaves the heap and the tracker, count included,
    exactly as they were before the creation. *)
Theorem create_destroy_round_trip cfg mem w p w1 :
  tracker_inv w ->
  swd_target_create (Some cfg) mem w = Some (Some p, w1) ->
  exists w2, swd_target_destroy (Some p) w1 = Some (tt, w2) /\
             heap w2 = heap w /\ g_resources w2 = g_resources w.
Proof.
  intros Hinv E. destruct mem as [q|]; [|discriminate E].
  apply create_inv in E. destruct E as [Hq [(Hr & b & i & Hfree & ->) | (Hr & _)]];
    [|discriminate Hr].
  injection Hr as <-. rewrite destroy_insert. eexists. split; [reflexivity|].
  cbn [heap g_resources]. split; [apply delete_id, Hq|].
  unfold destroy_tracker. cbn [created_target resource_registered t_pio pio sm].
  apply released_claimed; [exact Hfree|].
  pose proof (inv_count _ Hinv) as Hc. pose proof (inv_wf _ Hinv) as Hwf.
  destruct Hfree as (Hb & Hi & Ho).
  pose proof (total_owned_claim _ _ _ p Hb Ho) as Hcl.
  pose proof (total_owned_le _ (with_owner_wf _ b (Z.to_nat i) (Some p) Hwf)). lia.
Qed.

(** X2: a creation that returns NULL, for whatever reason, leaves neither a
    session object nor a slot behind: the heap and the tracker are as before. *)
Theorem create_failure_leaks_nothing config mem w w' :
  swd_target_create config mem w = Some (None, w') ->
  heap w' = heap w /\ g_resources w' = g_resources w.
Proof.
  intros E. destruct config as [cfg|]; [|injection E as <-; auto].
  destruct mem as [q|]; [|injection E as <-; auto].
  apply create_inv in E. destruct E as [_ [(Hr & _) | (_ & ->)]]; [discriminate Hr|].
  auto.
Qed.

(** X3: [register_target] never removes or replaces an owner and never
    touches the heap; it answers true only for a slot that was unowned, which
    then maps to the target, and on false the tracker is unchanged. *)
Theorem register_target_keeps_owners target b i w ok w' :
  register_target target b i w = Some (ok, w') ->
  heap w' = heap w /\
  (forall b' j q, slot_owner (g_resources w) b' j = Some q ->
                  slot_owner (g_resources w') b' j = Some q) /\
  (ok = true ->
   slot_owner (g_resources w) b (Z.to_nat i) = None /\
   slot_owner (g_resources w') b (Z.to_nat i) = target /\ target <> None) /\
  (ok = false -> g_resources w' = g_resources w).
Proof.
  intros E. destruct target as [p|]; [|injection E as <- <-; repeat split; auto; discriminate].
  destruct w as [h g c]. apply register_inv in E. destruct ok.
  - destruct E as [Hfree ->]. cbn [heap g_resources]. split; [reflexivity|]. split; [|split].
    + intros b' j q Hq. rewrite (slot_owner_claimed _ _ _ _ _ _ Hfree).
      case_decide as Hd; [|exact Hq]. destruct Hd as [-> ->].
      rewrite (slot_free_owner _ _ _ Hfree) in Hq. discriminate Hq.
    + intros _. split; [exact (slot_free_owner _ _ _ Hfree)|]. split; [|discriminate].
      rewrite (slot_owner_claimed _ _ _ _ _ _ Hfree). now rewrite decide_True by auto.
    + discriminate.
  - subst w'. cbn [heap g_resources]. repeat split; auto; discriminate.
Qed.

(** X10: a creation, successful or not, leaves every session that was live
    and every slot that was owned as it was. *)
Theorem create_frame config mem w r w' :
  swd_target_create config mem w = Some (r, w') ->
  (forall q t, heap w !! q = Some t -> heap w' !! q = Some t) /\
  (forall b j q, slot_owner (g_resources w) b j = Some q ->
                 slot_owner (g_resources w') b j = Some q).
Proof.
  intros E. destruct config as [cfg|]; [|injection E as <- <-; auto].
  destruct mem as [p|]; [|injection E as <- <-; auto].
  apply create_inv in E. destruct E as [Hp [(-> & b & i & Hfree & ->) | (-> & ->)]];
    cbn [heap g_resources]; [|auto].
  split.
  - intros q t Hq. rewrite lookup_insert_ne; [exact Hq|]. intros <-. congruence.
  - intros b' j q Hq. rewrite (slot_owner_claimed _ _ _ _ _ _ Hfree).
    case_decide as Hd; [|exact Hq]. destruct Hd as [-> ->].
    rewrite (slot_free_owner _ _ _ Hfree) in Hq. discriminate Hq.
Qed.

(** X11: in a consistent world, destroying a live session frees its object
    and leaves every other session and every slot owned by another session as
    they were. *)
Theorem destroy_frame p t w w' :
  tracker_inv w -> heap w !! p = Some t ->
  swd_target_destroy (Some p) w = Some (tt, w') ->
  heap w' !! p = None /\
  (forall q, q <> p -> heap w' !! q = heap w !! q) /\
  (forall b j q, q <> p -> slot_owner (g_resources w) b j = Some q ->
                 slot_owner (g_resources w') b j = Some q).
Proof.
  intros Hinv Ht E. rewrite (destroy_live _ _ _ Ht) in E. injection E as <-.
  cbn [heap g_resources]. split; [apply lookup_delete_eq|]. split.
  - intros q Hq. apply lookup_delete_ne. congruence.
  - intros b j q Hq Hs. unfold destroy_tracker.
    destruct (resource_registered t) eqn:Hr; [|exact Hs].
    rewrite (released_registered _ _ _ Hinv Ht Hr).
    change (slot_owner (set_active_count ?n ?g') b j) with (slot_owner g' b j).
    destruct (inv_registered _ Hinv _ _ Ht Hr) as (Hb & Hi & Ho).
    rewrite slot_owner_with_owner; [|exact Hb|apply lookup_lt_Some in Ho; exact Ho].
    case_decide as Hd; [|exact Hs]. destruct Hd as [-> ->].
    unfold slot_owner in Hs. rewrite Ho in Hs. cbn in Hs. congruence.
Qed.

(** X13: [unregister_target] is idempotent: once it has run, running it
    again on the same handle changes nothing, so a slot is never released
    twice. *)
Theorem unregister_target_idempotent target w w1 :
  unregister_target target w = Some (tt, w1) ->
  unregister_target target w1 = Some (tt, w1).
Proof.
  destruct target as [p|]; [|intros _; reflexivity].
  destruct w as [h g c]. unfold unregister_target. unfold bind at 1, load at 1. cbn [heap].
  destruct (h !! p) as [t|] eqn:Ht; [|discriminate].
  destruct (resource_registered t) eqn:Hr; cbn [negb].
  - unfold bind at 1. rewrite release_pio_sm_eq. unfold modify. cbn [heap g_resources calls].
    rewrite Ht. intros E. injection E as <-.
    unfold bind, load. cbn [heap]. rewrite lookup_insert_eq. reflexivity.
  - intros E. injection E as <-. unfold bind, load. cbn [heap]. rewrite Ht, Hr. reflexivity.
Qed.

(** X12: [release_pio_sm] never wraps the count around: for a state machine
    index of 4 or more it changes nothing; otherwise the count goes down by
    one unless it is already zero, the heap is untouched and no slot other
    than the named one changes. *)
Theorem release_pio_sm_count b i w :
  0 <= active_count (g_resources w) < uint_max ->
  exists w',
    release_pio_sm b i w = Some (tt, w') /\
    heap w' = heap w /\
    active_count (g_resources w') =
      (if (4 <=? i) || (active_count (g_resources w) =? 0)
       then active_count (g_resources w) else active_count (g_resources w) - 1) /\
    (forall b' j, ~ (b' = b /\ j = Z.to_nat i) ->
       slot_owner (g_resources w') b' j = slot_owner (g_resources w) b' j) /\
    (4 <= i -> g_resources w' = g_resources w).
Proof.
  intros Hn. destruct w as [h g c]. rewrite release_pio_sm_eq. eexists. split; [reflexivity|].
  cbn [heap g_resources] in *. split; [reflexivity|]. unfold released.
  destruct (Z.leb_spec 4 i) as [Hge | Hlt]; cbn [orb].
  - split; [reflexivity|]. split; [reflexivity|]. reflexivity.
  - cbv zeta.
    assert (Hc : active_count (with_owner g b (Z.to_nat i) None) = active_count g).
    { unfold with_owner. destruct (b =? pio0); [|destruct (b =? pio1)]; reflexivity. }
    rewrite Hc.
    assert (Hs : forall b' j, ~ (b' = b /\ j = Z.to_nat i) ->
      slot_owner (with_owner g b (Z.to_nat i) None) b' j = slot_owner g b' j).
    { intros b' j Hne. unfold slot_owner, owners_of, with_owner.
      destruct (Z.eqb_spec b pio0) as [-> | Hb0].
      - cbn [set_pio0_owner pio0_sm_owners pio1_sm_owners].
        destruct (Z.eqb_spec b' pio0) as [-> | Hb'0]; [|reflexivity].
        rewrite list_lookup_insert_ne; [reflexivity|]. intros Hj. apply Hne. auto.
      - destruct (Z.eqb_spec b pio1) as [-> | Hb1]; [|reflexivity].
        cbn [set_pio1_owner pio0_sm_owners pio1_sm_owners].
        destruct (Z.eqb_spec b' pio0) as [-> | Hb'0]; [reflexivity|].
        destruct (Z.eqb_spec b' pio1) as [-> | Hb'1]; [|reflexivity].
        rewrite list_lookup_insert_ne; [reflexivity|]. intros Hj. apply Hne. auto. }
    destruct (Z.ltb_spec 0 (active_count g)) as [Hpos | Hz].
    + cbn [active_count set_active_count].
      destruct (Z.eqb_spec (active_count g) 0) as [|_]; [lia|].
      split; [unfold uint_decr; apply Z.mod_small; lia|]. split; [exact Hs | lia].
    + destruct (Z.eqb_spec (active_count g) 0) as [_|]; [|lia].
      split; [exact Hc|]. split; [exact Hs | lia].
Qed.

Lemma sessions_inv_init : sessions_inv world_init.
Proof.
  split.
  - intros p t H. cbn [world_init heap] in H. rewrite lookup_empty in H. discriminate H.
  - reflexivity.
Qed.

Lemma sessions_inv_run_call c w w' :
  tracker_inv w -> sessions_inv w -> run_call c w = Some (tt, w') -> sessions_inv w'.
Proof.
  intros Hinv [Hall Hsize] H. destruct c as [[cfg|] [p|] | [p|]]; cbn [run_call] in H.
  - unfold bind at 1 in H.
    destruct (swd_target_create _ _ _) as [[r w1]|] eqn:E; [|discriminate].
    injection H as <-. apply create_inv in E.
    destruct E as [Hp [(-> & b & i & Hfree & ->) | (-> & ->)]].
    + pose proof (inv_count _ (inv_create _ cfg _ _ _ Hinv Hp Hfree)) as Hc.
      unfold sessions_inv. cbn [heap g_resources] in *. split.
      * intros q t Hq. destruct (decide (q = p)) as [-> | Hne].
        -- rewrite lookup_insert_eq in Hq. injection Hq as <-. auto.
        -- rewrite lookup_insert_ne in Hq by congruence. exact (Hall _ _ Hq).
      * rewrite map_size_insert_None by exact Hp. rewrite Hc.
        destruct Hfree as (Hb & _ & Ho). unfold claimed.
        change (total_owned (set_active_count _ ?g)) with (total_owned g).
        rewrite (total_owned_claim _ _ _ _ Hb Ho).
        rewrite (inv_count _ Hinv) in Hsize. lia.
    + split; assumption.
  - injection H as <-. split; assumption.
  - injection H as <-. split; assumption.
  - injection H as <-. split; assumption.
  - destruct (heap w !! p) as [t|] eqn:Hp.
    + rewrite (destroy_live _ _ _ Hp) in H. injection H as <-.
      destruct (Hall _ _ Hp) as [Hr _]. unfold sessions_inv. cbn [heap g_resources]. split.
      * intros q tq Hq. destruct (decide (q = p)) as [-> | Hne];
          [rewrite lookup_delete_eq in Hq; discriminate Hq|].
        rewrite lookup_delete_ne in Hq by congruence. exact (Hall _ _ Hq).
      * unfold destroy_tracker. rewrite Hr, (released_registered _ _ _ Hinv Hp Hr).
        cbn [active_count set_active_count].
        rewrite map_size_delete_Some by eauto.
        assert (size (heap w) <> 0)%nat.
        { intros Hz. apply map_size_empty_inv in Hz. rewrite Hz, lookup_empty in Hp.
          discriminate Hp. }
        lia.
    + rewrite (destroy_dangling _ _ Hp) in H. discriminate.
  - injection H as <-. split; assumption.
Qed.

Lemma sessions_inv_run_calls cs w w' :
  tracker_inv w -> sessions_inv w -> run_calls cs w = Some (tt, w') ->
  tracker_inv w' /\ sessions_inv w'.
Proof.
  revert w. induction cs as [|c cs IH]; intros w Hinv Hs H.
  - injection H as <-. auto.
  - cbn [run_calls] in H. unfold bind at 1 in H.
    destruct (run_call c w) as [[[] w1]|] eqn:E; [|discriminate].
    exact (IH _ (inv_run_call _ _ _ Hinv E) (sessions_inv_run_call _ _ _ Hinv Hs E) H).
Qed.

(** X15: after any sequence of lifecycle calls every live session is
    registered, not connected and the owner of the slot it names; the count
    is the number of live sessions, which is at most eight. *)
Theorem live_sessions_counted (cs : list lifecycle_call) (w : world) :
  run_calls cs world_init = Some (tt, w) ->
  (forall p t, heap w !! p = Some t ->
     resource_registered t = true /\ connected t = false /\
     slot_owner (g_resources w) (pio (t_pio t)) (Z.to_nat (sm (t_pio t))) = Some p) /\
  active_count (g_resources w) = Z.of_nat (size (heap w)) /\
  (size (heap w) <= 8)%nat.
Proof.
  intros Hrun.
  destruct (sessions_inv_run_calls _ _ _ inv_init sessions_inv_init Hrun)
    as [Hinv [Hall Hsize]].
  split; [|split; [lia|]].
  - intros p t Hp. destruct (Hall _ _ Hp) as [Hr Hc]. split; [exact Hr|]. split; [exact Hc|].
    destruct (inv_registered _ Hinv _ _ Hp Hr) as (Hb & _ & Ho).
    apply slot_owner_Some. auto.
  - pose proof (total_owned_le _ (inv_wf _ Hinv)). pose proof (inv_count _ Hinv). lia.
Qed.

Lemma count_owned_full (l : list target_ptr) :
  count_owned l = length l <-> forall j, (j < length l)%nat -> owned l j.
Proof.
  induction l as [|o l IH]; cbn [count_owned length].
  - split; [intros _ j Hj; lia | reflexivity].
  - pose proof (count_owned_le l) as Hle. destruct o as [q|].
    + split.
      * intros Hc j Hj. destruct j as [|j]; [exists q; reflexivity|].
        apply (proj1 IH); lia.
      * intros Hall. f_equal. apply IH. intros j Hj. exact (Hall (S j) ltac:(lia)).
    + split; [lia|]. intros Hall. destruct (Hall 0%nat ltac:(lia)) as [q Hq]. discriminate Hq.
Qed.

Lemma all_owned_total g :
  tracker_wf g ->
  (all_owned (pio0_sm_owners g) /\ all_owned (pio1_sm_owners g)) <->
  total_owned g = 8%nat.
Proof.
  intros [H0 H1]. unfold total_owned, all_owned.
  pose proof (count_owned_le (pio0_sm_owners g)).
  pose proof (count_owned_le (pio1_sm_owners g)).
  pose proof (count_owned_full (pio0_sm_owners g)) as F0.
  pose proof (count_owned_full (pio1_sm_owners g)) as F1.
  rewrite H0 in *. rewrite H1 in *. split.
  - intros [A0 A1]. apply F0 in A0. apply F1 in A1. lia.
  - intros Ht. split; [apply F0 | apply F1]; lia.
Qed.

(** X4: after any sequence of lifecycle calls, an auto-mode creation with a
    successful allocation returns a handle exactly when fewer than eight
    sessions are live, and NULL exactly when eight are. *)
Theorem auto_create_capacity (cs : list lifecycle_call) (w : world)
    (cfg : swd_config_t) (p : addr) :
  run_calls cs world_init = Some (tt, w) ->
  cfg_auto cfg = true -> heap w !! p = None ->
  exists r w',
    swd_target_create (Some cfg) (Some p) w = Some (r, w') /\
    (r = Some p <-> (size (heap w) < 8)%nat) /\
    (r = None <-> size (heap w) = 8%nat).
Proof.
  intros Hrun Hauto Hp.
  destruct (sessions_inv_run_calls _ _ _ inv_init sessions_inv_init Hrun)
    as [Hinv [_ Hsize]].
  pose proof (inv_wf _ Hinv) as Hwf. pose proof (inv_count _ Hinv) as Hc.
  pose proof (total_owned_le _ Hwf) as Hle.
  pose proof (all_owned_total _ Hwf) as Hfull.
  destruct (create_cases cfg p w Hwf Hp)
    as [(b & i & _ & _ & Hav & E) | (Hnav & E)]; rewrite E; eexists _, _;
    (split; [reflexivity|]); unfold slot_available in *; rewrite Hauto in *.
  - assert (total_owned (g_resources w) <> 8)%nat by tauto.
    split; split; try discriminate; intros; try reflexivity; lia.
  - assert (total_owned (g_resources w) = 8)%nat.
    { destruct (decide (total_owned (g_resources w) = 8%nat)) as [|Hne]; [assumption|].
      exfalso. apply Hnav. intros Hall. apply Hne. tauto. }
    split; split; try discriminate; intros; try reflexivity; lia.
Qed.

Lemma count_used_owned (l : list target_ptr) :
  count_used (map (fun o : target_ptr => bool_decide (o <> None)) l) = count_owned l.
Proof.
  induction l as [|[q|] l IH]; cbn [map count_used count_owned]; [reflexivity| |].
  - rewrite bool_decide_eq_true_2 by discriminate. now rewrite IH.
  - rewrite bool_decide_eq_false_2 by auto. exact IH.
Qed.

(** X5: after any sequence of lifecycle calls, [swd_get_resource_usage]
    changes nothing and reports four flags per block, each set exactly when
    its slot has an owner, and an [active_targets] that is both the number of
    flags set and the number of live sessions. *)
Theorem resource_usage_consistent (cs : list lifecycle_call) (w : world) :
  run_calls cs world_init = Some (tt, w) ->
  exists info,
    swd_get_resource_usage w = Some (info, w) /\
    length (pio0_sm_used info) = 4%nat /\ length (pio1_sm_used info) = 4%nat /\
    (forall i, pio0_sm_used info !! i = Some true <->
               exists p, slot_owner (g_resources w) pio0 i = Some p) /\
    (forall i, pio1_sm_used info !! i = Some true <->
               exists p, slot_owner (g_resources w) pio1 i = Some p) /\
    active_targets info =
      Z.of_nat (count_used (pio0_sm_used info) + count_used (pio1_sm_used info)) /\
    active_targets info = Z.of_nat (size (heap w)).
Proof.
  intros Hrun.
  destruct (sessions_inv_run_calls _ _ _ inv_init sessions_inv_init Hrun)
    as [Hinv [_ Hsize]].
  pose proof (inv_wf _ Hinv) as [H0 H1]. pose proof (inv_count _ Hinv) as Hc.
  eexists. split; [reflexivity|].
  cbn [pio0_sm_used pio1_sm_used active_targets].
  rewrite !length_map, !count_used_owned.
  assert (Hflag : forall (l : list target_ptr) i,
    map (fun o : target_ptr => bool_decide (o <> None)) l !! i = Some true <->
    exists p, l !! i = Some (Some p)).
  { intros l i. rewrite list_lookup_fmap. destruct (l !! i) as [[q|]|]; cbn.
    - split; eauto.
    - split; [discriminate | intros [p Hp]; discriminate Hp].
    - split; [discriminate | intros [p Hp]; discriminate Hp]. }
  split; [exact H0|]. split; [exact H1|]. split; [|split; [|split; [exact Hc | lia]]].
  - intros i. rewrite Hflag. split; intros [p Hp]; exists p.
    + apply slot_owner_Some. split; [auto|]. unfold owners_of. now rewrite Z.eqb_refl.
    + apply slot_owner_Some in Hp. destruct Hp as [_ Hp]. unfold owners_of in Hp.
      now rewrite Z.eqb_refl in Hp.
  - intros i. rewrite Hflag. split; intros [p Hp]; exists p.
    + apply slot_owner_Some. split; [auto|]. unfold owners_of.
      now rewrite pio1_not_pio0, Z.eqb_refl.
    + apply slot_owner_Some in Hp. destruct Hp as [_ Hp]. unfold owners_of in Hp.
      now rewrite pio1_not_pio0, Z.eqb_refl in Hp.
Qed.

Lemma substring_0_length n s :
  String.length (String.substring 0 n s) = Nat.min n (String.length s).
Proof.
  revert s. induction n as [|n IH]; intros [|c s]; cbn; try reflexivity.
  now rewrite IH.
Qed.

Lemma substring_0_prefix n s : String.prefix (String.substring 0 n s) s = true.
Proof.
  revert s. induction n as [|n IH]; intros [|c s]; cbn; try reflexivity.
  destruct (Ascii.ascii_dec c c) as [_|Hne]; [apply IH | congruence].
Qed.

Lemma substring_0_all n s :
  (String.length s <= n)%nat -> String.substring 0 n s = s.
Proof.
  revert s. induction n as [|n IH]; intros [|c s] H; cbn in *; try reflexivity; try lia.
  f_equal. apply IH. lia.
Qed.

(** X6: on a live session, [swd_set_error] followed by
    [swd_get_last_error_detail] gives back the detail cut to at most 127
    characters: a prefix of the text, the whole text when it fits, the empty
    string for a null detail. The error tag is stored; the slot, the
    connection state, the IDCODE, the registration flag, the tracker and
    every other session are unchanged. *)
Theorem error_detail_round_trip p t e detail w :
  heap w !! p = Some t ->
  exists w1 t1 d,
    swd_set_error (Some p) e detail w = Some (tt, w1) /\
    swd_get_last_error_detail (Some p) w1 = Some (d, w1) /\
    heap w1 !! p = Some t1 /\ last_error t1 = e /\ error_detail t1 = d /\
    (String.length d <= 127)%nat /\
    match detail with
    | Some s => String.prefix d s = true /\ ((String.length s <= 127)%nat -> d = s)
    | None => d = EmptyString
    end /\
    t_pio t1 = t_pio t /\ connected t1 = connected t /\ idcode t1 = idcode t /\
    resource_registered t1 = resource_registered t /\
    g_resources w1 = g_resources w /\
    (forall q, q <> p -> heap w1 !! q = heap w !! q).
Proof.
  intros Ht. destruct w as [h g c]. cbn [heap g_resources] in *.
  assert (E : swd_set_error (Some p) e detail (mk_world h g c) =
    Some (tt, mk_world (<[p := set_error_detail
                             (match detail with Some s => detail_text s | None => EmptyString end)
                             (set_last_error e t)]> h) g c)).
  { rewrite <- (insert_id h p t Ht) at 1. unfold swd_set_error. rewrite bind_modify.
    destruct detail; unfold modify; cbn [heap g_resources calls];
      now rewrite lookup_insert_eq, insert_insert_eq. }
  rewrite E. eexists _, _, _. split; [reflexivity|]. cbn [heap g_resources].
  split; [unfold swd_get_last_error_detail; rewrite bind_load; reflexivity|].
  split; [apply lookup_insert_eq|]. cbn.
  split; [reflexivity|]. split; [reflexivity|]. split.
  - destruct detail as [s|]; [|cbn; lia]. unfold detail_text. rewrite substring_0_length. lia.
  - split.
    + destruct detail as [s|]; [|reflexivity]. unfold detail_text.
      split; [apply substring_0_prefix | apply substring_0_all].
    + repeat split. intros q Hq. apply lookup_insert_ne. congruence.
Qed.

Lemma read_idcode_live p t h g c :
  swd_read_idcode (Some p) (mk_world (<[p := t]> h) g c) =
  if connected t
  then Some (mk_result SWD_OK (idcode t), mk_world (<[p := t]> h) g c)
  else Some (mk_result SWD_ERROR_NOT_CONNECTED 0,
             mk_world (<[p := set_error_detail "Not connected"
                                (set_last_error SWD_ERROR_NOT_CONNECTED t)]> h) g c).
Proof.
  unfold swd_read_idcode. rewrite bind_load. destruct (connected t); cbn [negb].
  - reflexivity.
  - rewrite bind_set_error. reflexivity.
Qed.

(** X7: [swd_is_connected] changes nothing and agrees with
    [swd_read_idcode]: it answers true exactly when the read returns [SWD_OK],
    and false exactly when the read returns [SWD_ERROR_NOT_CONNECTED] with
    value 0; the read changes neither the tracker nor the answer. *)
Theorem is_connected_agrees_with_read_idcode target w b w1 :
  swd_is_connected target w = Some (b, w1) ->
  w1 = w /\
  exists r w2,
    swd_read_idcode target w = Some (r, w2) /\
    (b = true <-> error r = SWD_OK) /\
    (b = false <-> error r = SWD_ERROR_NOT_CONNECTED /\ value r = 0) /\
    g_resources w2 = g_resources w /\
    swd_is_connected target w2 = Some (b, w2).
Proof.
  destruct target as [p|].
  - unfold swd_is_connected. unfold bind at 1, load at 1.
    destruct (heap w !! p) as [t|] eqn:Ht; [|discriminate].
    intros E. injection E as <- <-. split; [reflexivity|].
    destruct w as [h g c]. cbn [heap] in Ht.
    pose proof (read_idcode_live p t h g c) as Hread.
    rewrite (insert_id h p t Ht) in Hread. rewrite Hread.
    destruct (connected t) eqn:Hc.
    + eexists _, _. split; [reflexivity|]. cbn [error value g_resources].
      split; [tauto|]. split; [split; [discriminate | intros [Hd _]; discriminate Hd]|].
      split; [reflexivity|]. unfold bind, load. cbn [heap]. now rewrite Ht, Hc.
    + eexists _, _. split; [reflexivity|]. cbn [error value g_resources].
      split; [split; discriminate|]. split; [tauto|]. split; [reflexivity|].
      rewrite bind_load. cbn. now rewrite Hc.
  - intros E. injection E as <- <-. split; [reflexivity|]. eexists _, _.
    split; [reflexivity|]. cbn. split; [split; discriminate|]. tauto.
Qed.

(** X8: a failed [swd_read_idcode] on a live session is recorded in it:
    afterwards the last error is [SWD_ERROR_NOT_CONNECTED] and
    [swd_get_last_error_detail] returns "Not connected". *)
Theorem read_idcode_failure_recorded p t w :
  heap w !! p = Some t -> connected t = false ->
  exists r w',
    swd_read_idcode (Some p) w = Some (r, w') /\
    error r = SWD_ERROR_NOT_CONNECTED /\
    swd_get_last_error_detail (Some p) w' = Some ("Not connected"%string, w') /\
    exists t', heap w' !! p = Some t' /\ last_error t' = SWD_ERROR_NOT_CONNECTED /\
               error_detail t' = swd_error_string SWD_ERROR_NOT_CONNECTED.
Proof.
  intros Ht Hc. destruct w as [h g c]. cbn [heap] in Ht.
  pose proof (read_idcode_live p t h g c) as Hread.
  rewrite (insert_id h p t Ht), Hc in Hread. rewrite Hread.
  eexists _, _. split; [reflexivity|]. split; [reflexivity|]. split.
  - unfold swd_get_last_error_detail. rewrite bind_load. reflexivity.
  - eexists. cbn [heap]. rewrite lookup_insert_eq. split; [reflexivity|]. split; reflexivity.
Qed.

(** X9: a successful creation stores the configuration unchanged:
    [swd_get_frequency] returns the configured frequency, the pins, the retry
    count and the caching flag are the configured ones, the session is not
    connected and has no error, and outside auto mode its slot is the
    requested one. *)
Theorem create_stores_config config mem w p w' :
  swd_target_create config mem w = Some (Some p, w') ->
  exists cfg, config = Some cfg /\
    swd_get_frequency (Some p) w' = Some (cfg_freq_khz cfg, w') /\
    swd_is_connected (Some p) w' = Some (false, w') /\
    swd_get_last_error_detail (Some p) w' = Some (EmptyString, w') /\
    exists t, heap w' !! p = Some t /\
      pin_swclk (t_pio t) = cfg_pin_swclk cfg /\ pin_swdio (t_pio t) = cfg_pin_swdio cfg /\
      retry_count (dap t) = cfg_retry_count cfg /\
      cache_enabled (rp2350 t) = cfg_enable_caching cfg /\
      last_error t = SWD_OK /\
      (cfg_auto cfg = false -> pio (t_pio t) = cfg_pio cfg /\ sm (t_pio t) = cfg_sm cfg).
Proof.
  intros E. destruct config as [cfg|]; [|discriminate E]. exists cfg. split; [reflexivity|].
  destruct mem as [q|]; [|discriminate E].
  destruct (cfg_auto cfg) eqn:Hauto.
  - apply create_inv in E. destruct E as [Hq [(Hr & b & i & Hfree & ->) | (Hr & _)]];
      [|discriminate Hr].
    injection Hr as <-.
    unfold swd_get_frequency, swd_is_connected, swd_get_last_error_detail.
    rewrite !bind_load. repeat (split; [reflexivity|]).
    eexists. cbn [heap]. rewrite lookup_insert_eq. split; [reflexivity|].
    cbn. repeat (split; [reflexivity|]). discriminate.
  - pose proof E as E'. apply create_inv in E.
    destruct E as [Hq [(Hr & b & i & Hfree & ->) | (Hr & _)]]; [|discriminate Hr].
    injection Hr as <-.
    assert (Hbi : b = cfg_pio cfg /\ i = cfg_sm cfg).
    { unfold swd_target_create in E'. rewrite (bind_calloc _ _ _ Hq) in E'.
      cbv beta iota in E'. rewrite !bind_modify in E'. fold (cfg_auto cfg) in E'.
      rewrite Hauto in E'. rewrite !bind_modify in E'.
      apply create_register_inv in E'; [|exact Hq].
      destruct E' as [(_ & _ & Hw) | (Hr & _)]; [|discriminate Hr].
      injection Hw as Hheap Hg.
      assert (Hl : (<[p := created_target cfg b i]> (heap w)) !! p
                   = Some (created_target cfg b i)) by apply lookup_insert_eq.
      rewrite Hheap, lookup_insert_eq in Hl. injection Hl as Hpio Hsm. auto. }
    destruct Hbi as [-> ->].
    unfold swd_get_frequency, swd_is_connected, swd_get_last_error_detail.
    rewrite !bind_load. repeat (split; [reflexivity|]).
    eexists. cbn [heap]. rewrite lookup_insert_eq. split; [reflexivity|].
    cbn. repeat (split; [reflexivity|]). auto.
Qed.

(** X16: the slot of a destroyed session can be claimed again: in a
    consistent world, after destroying a registered session, a creation that
    requests its slot explicitly succeeds and owns that slot. *)
Theorem destroyed_slot_reusable p t w w1 cfg p' :
  tracker_inv w -> heap w !! p = Some t -> resource_registered t = true ->
  swd_target_destroy (Some p) w = Some (tt, w1) ->
  cfg_auto cfg = false -> cfg_pio cfg = pio (t_pio t) -> cfg_sm cfg = sm (t_pio t) ->
  heap w1 !! p' = None ->
  exists w2,
    swd_target_create (Some cfg) (Some p') w1 = Some (Some p', w2) /\
    slot_owner (g_resources w2) (pio (t_pio t)) (Z.to_nat (sm (t_pio t))) = Some p'.
Proof.
  intros Hinv Ht Hr E Hauto Hpio Hsm Hp'.
  pose proof (proj1 (inv_destroy _ _ _ (calls w ++ destroy_calls p t) Hinv Ht)) as Hinv1.
  rewrite (destroy_live _ _ _ Ht) in E. injection E as <-.
  destruct (inv_registered _ Hinv _ _ Ht Hr) as (Hb & Hi & Ho).
  assert (Hfree : slot_free (destroy_tracker t (g_resources w)) (cfg_pio cfg) (cfg_sm cfg)).
  { rewrite Hpio, Hsm. split; [exact Hb|]. split; [exact Hi|].
    unfold destroy_tracker. rewrite Hr, (released_registered _ _ _ Hinv Ht Hr).
    rewrite owners_of_set_active_count, owners_of_with_owner by assumption.
    rewrite decide_True by reflexivity. apply list_lookup_insert_eq.
    apply lookup_lt_Some in Ho. exact Ho. }
  destruct (create_cases cfg p' _ (inv_wf _ Hinv1) Hp')
    as [(b & i & _ & Hsel & _ & E) | (Hnav & _)].
  - destruct (Hsel Hauto) as [-> ->]. cbn [heap g_resources calls] in E. rewrite E.
    eexists. split; [reflexivity|]. cbn [g_resources].
    rewrite (slot_owner_claimed _ _ _ _ _ _ Hfree). rewrite decide_True; [reflexivity|].
    rewrite Hpio, Hsm. auto.
  - exfalso. apply Hnav. unfold slot_available. rewrite Hauto. exact Hfree.
Qed.

(** X14: [swd_error_string] gives the nineteen error codes nineteen
    different, non-empty texts, none of them "Unknown error", which is what
    any value of 19 or more gets. *)
Theorem error_strings_distinct :
  (forall e, swd_error_string_at (error_code e) = swd_error_string e) /\
  (forall n, 19 <= n -> swd_error_string_at n = "Unknown error"%string) /\
  (forall e1 e2, swd_error_string e1 = swd_error_string e2 -> e1 = e2) /\
  (forall e, swd_error_string e <> "Unknown error"%string /\
             swd_error_string e <> EmptyString).
Proof.
  split; [intros e; destruct e; reflexivity|]. split.
  - intros n Hn. unfold swd_error_string_at. cbn [length error_strings].
    destruct (Z.leb_spec (Z.of_nat 19) n) as [_|]; [reflexivity | lia].
  - split.
    + intros e1 e2 H. destruct e1; destruct e2; try reflexivity; discriminate H.
    + intros e. destruct e; split; discriminate.
Qed.

Lemma world_created_run :
  run_calls [CallCreate (Some cfg_gpio23) (Some 1%positive)] world_init
  = Some (tt, world_created).
Proof. vm_compute. reflexivity. Qed.

Lemma world_created_inv : tracker_inv world_created.
Proof. exact (inv_run_calls _ _ _ inv_init world_created_run). Qed.

Lemma world_two_inv : tracker_inv world_two.
Proof.
  apply (inv_run_calls [CallCreate (Some cfg_gpio23) (Some 1%positive);
                        CallCreate (Some cfg_pio1_sm2) (Some 2%positive)] world_init);
    [exact inv_init | vm_compute; reflexivity].
Qed.

Lemma create_destroy_round_trip_witness :
  exists w2, swd_target_destroy (Some 1%positive) world_created = Some (tt, w2) /\
             heap w2 = heap world_init /\ g_resources w2 = g_resources world_init.
Proof.
  apply (create_destroy_round_trip cfg_gpio23 (Some 1%positive) world_init); [exact inv_init|].
  vm_compute. reflexivity.
Defined.

Lemma create_failure_leaks_nothing_witness :
  heap world_refused = heap world_created /\
  g_resources world_refused = g_resources world_created.
Proof.
  apply (create_failure_leaks_nothing (Some cfg_pio0_sm0) (Some 3%positive)).
  vm_compute. reflexivity.
Defined.

Lemma register_target_keeps_owners_witness :
  slot_owner (g_resources world_created) pio1 2 = None /\
  slot_owner (g_resources world_registered) pio1 2 = Some 2%positive /\
  slot_owner (g_resources world_registered) pio0 0 = Some 1%positive.
Proof.
  destruct (register_target_keeps_owners (Some 2%positive) pio1 2 world_created true
              world_registered) as (_ & Hkeep & Hok & _).
  - vm_compute. reflexivity.
  - destruct (Hok eq_refl) as (Hbefore & Hafter & _).
    split; [exact Hbefore|]. split; [exact Hafter|]. apply Hkeep. reflexivity.
Defined.

Lemma create_frame_witness :
  heap world_two !! 1%positive = Some (created_target cfg_gpio23 pio0 0).
Proof.
  refine (proj1 (create_frame (Some cfg_pio1_sm2) (Some 2%positive) world_created
                   (Some 2%positive) world_two _) 1%positive _ _).
  - vm_compute. reflexivity.
  - vm_compute. reflexivity.
Defined.

Lemma destroy_frame_witness :
  heap world_two_destroyed !! 1%positive = None /\
  heap world_two_destroyed !! 2%positive = heap world_two !! 2%positive.
Proof.
  destruct (destroy_frame 1%positive (created_target cfg_gpio23 pio0 0) world_two
              world_two_destroyed world_two_inv) as (Hgone & Hheap & _).
  - vm_compute. reflexivity.
  - vm_compute. reflexivity.
  - split; [exact Hgone|]. apply Hheap. discriminate.
Defined.

Lemma unregister_target_idempotent_witness :
  unregister_target (Some 1%positive) world_unregistered = Some (tt, world_unregistered).
Proof.
  apply (unregister_target_idempotent (Some 1%positive) world_created).
  vm_compute. reflexivity.
Defined.

Lemma release_pio_sm_count_witness :
  exists w', release_pio_sm pio0 0 world_created = Some (tt, w') /\
             active_count (g_resources w') = 0.
Proof.
  destruct (release_pio_sm_count pio0 0 world_created) as (w' & E & _ & Hc & _).
  - vm_compute. split; [discriminate | reflexivity].
  - exists w'. split; [exact E|]. rewrite Hc. reflexivity.
Defined.

Lemma demo_world_run : run_calls demo_calls world_init = Some (tt, demo_world).
Proof. vm_compute. reflexivity. Qed.

Lemma live_sessions_counted_witness :
  active_count (g_resources demo_world) = Z.of_nat (size (heap demo_world)).
Proof. exact (proj1 (proj2 (live_sessions_counted _ _ demo_world_run))). Defined.

Lemma auto_create_capacity_witness :
  exists r w',
    swd_target_create (Some cfg_gpio23) (Some 5%positive) demo_world = Some (r, w') /\
    (r = Some 5%positive <-> (size (heap demo_world) < 8)%nat).
Proof.
  destruct (auto_create_capacity demo_calls demo_world cfg_gpio23 5%positive demo_world_run)
    as (r & w' & E & Hiff & _).
  - reflexivity.
  - vm_compute. reflexivity.
  - exists r, w'. split; [exact E | exact Hiff].
Defined.

Lemma resource_usage_consistent_witness :
  exists info, swd_get_resource_usage demo_world = Some (info, demo_world) /\
               active_targets info = Z.of_nat (size (heap demo_world)).
Proof.
  destruct (resource_usage_consistent _ _ demo_world_run)
    as (info & E & _ & _ & _ & _ & _ & Hn).
  exists info. split; [exact E | exact Hn].
Defined.

Lemma error_detail_round_trip_witness :
  exists w1 d,
    swd_set_error (Some 1%positive) SWD_ERROR_TIMEOUT (Some "No response"%string) world_created
      = Some (tt, w1) /\
    swd_get_last_error_detail (Some 1%positive) w1 = Some (d, w1).
Proof.
  destruct (error_detail_round_trip 1%positive (created_target cfg_gpio23 pio0 0)
              SWD_ERROR_TIMEOUT (Some "No response"%string) world_created)
    as (w1 & t1 & d & E & Hget & _).
  - vm_compute. reflexivity.
  - exists w1, d. split; [exact E | exact Hget].
Defined.

Lemma is_connected_agrees_with_read_idcode_witness :
  exists r w2, swd_read_idcode (Some 1%positive) world_connected = Some (r, w2) /\
               (true = true <-> error r = SWD_OK).
Proof.
  destruct (is_connected_agrees_with_read_idcode (Some 1%positive) world_connected true
              world_connected) as (_ & r & w2 & E & Hiff & _).
  - vm_compute. reflexivity.
  - exists r, w2. split; [exact E | exact Hiff].
Defined.

Lemma read_idcode_failure_recorded_witness :
  exists r w', swd_read_idcode (Some 1%positive) world_created = Some (r, w') /\
               swd_get_last_error_detail (Some 1%positive) w'
               = Some ("Not connected"%string, w').
Proof.
  destruct (read_idcode_failure_recorded 1%positive (created_target cfg_gpio23 pio0 0)
              world_created) as (r & w' & E & _ & Hd & _).
  - vm_compute. reflexivity.
  - reflexivity.
  - exists r, w'. split; [exact E | exact Hd].
Defined.

Lemma create_stores_config_witness :
  swd_get_frequency (Some 2%positive) world_two = Some (500, world_two).
Proof.
  destruct (create_stores_config (Some cfg_pio1_sm2) (Some 2%positive) world_created
              2%positive world_two) as (cfg & Hcfg & Hf & _).
  - vm_compute. reflexivity.
  - injection Hcfg as <-. exact Hf.
Defined.

Lemma destroyed_slot_reusable_witness :
  exists w2,
    swd_target_create (Some cfg_pio0_sm0) (Some 1%positive) world_destroyed
      = Some (Some 1%positive, w2) /\
    slot_owner (g_resources w2) pio0 0 = Some 1%positive.
Proof.
  apply (destroyed_slot_reusable 1%positive (created_target cfg_gpio23 pio0 0) world_created
           world_destroyed cfg_pio0_sm0 1%positive world_created_inv).
  - vm_compute. reflexivity.
  - reflexivity.
  - vm_compute. reflexivity.
  - reflexivity.
  - reflexivity.
  - reflexivity.
  - vm_compute. reflexivity.
Defined.

Lemma set_error_live p t e detail h g c :
  swd_set_error (Some p) e detail (mk_world (<[p := t]> h) g c) =
  Some (tt, mk_world (<[p := set_error_detail
                             (match detail with Some s => detail_text s | None => EmptyString end)
                             (set_last_error e t)]> h) g c).
Proof.
  unfold swd_set_error. rewrite bind_modify.
  destruct detail; unfold modify; cbn [heap g_resources calls];
    now rewrite lookup_insert_eq, insert_insert_eq.
Qed.

Lemma inv_run_api c w w' :
  tracker_inv w -> run_api c w = Some (tt, w') -> tracker_inv w'.
Proof.
  intros Hinv H.
  assert (Hload : forall A (f : swd_target -> A) p,
    bind (bind (load p) (fun t => ret (f t))) (fun _ => ret tt) w = Some (tt, w') -> w' = w).
  { intros A f p. unfold bind, load, ret. destruct (heap w !! p); [|discriminate].
    intros E. now injection E as <-. }
  destruct c as [c | [p|] | [p|] | [p|] | [p|] e detail | [p|] | ]; cbn [run_api] in H.
  - exact (inv_run_call _ _ _ Hinv H).
  - unfold bind at 1 in H.
    destruct (swd_read_idcode (Some p) w) as [[r w1]|] eqn:E; [|discriminate].
    injection H as <-. destruct w as [h g c].
    destruct (h !! p) as [t|] eqn:Ht.
    + rewrite <- (insert_id h p t Ht) in E, Hinv. rewrite read_idcode_live in E.
      destruct (connected t); injection E as <- <-; [exact Hinv|].
      revert Hinv. apply inv_field_update; reflexivity.
    + unfold swd_read_idcode, bind, load in E. cbn [heap] in E. rewrite Ht in E.
      discriminate E.
  - injection H as <-. exact Hinv.
  - unfold swd_is_connected in H. apply Hload in H. now subst.
  - injection H as <-. exact Hinv.
  - unfold swd_get_frequency in H. apply Hload in H. now subst.
  - injection H as <-. exact Hinv.
  - destruct w as [h g c]. destruct (h !! p) as [t|] eqn:Ht.
    + rewrite <- (insert_id h p t Ht) in H, Hinv. rewrite set_error_live in H.
      injection H as <-. revert Hinv. apply inv_field_update; reflexivity.
    + unfold swd_set_error, bind, modify in H. cbn [heap] in H. rewrite Ht in H.
      discriminate H.
  - injection H as <-. exact Hinv.
  - unfold swd_get_last_error_detail in H. apply Hload in H. now subst.
  - injection H as <-. exact Hinv.
  - injection H as <-. exact Hinv.
Qed.

(** X17: the other operations of swd.c keep the tracker consistent: after
    any sequence of creations, destructions, IDCODE reads, connection,
    frequency, usage and error-detail queries and error recordings, every
    owner is a live session, a live session is registered exactly when some
    slot maps to it, and the count is the number of owned slots. *)
Theorem api_keeps_tracker (cs : list api_call) (w : world) :
  run_apis cs world_init = Some (tt, w) ->
  tracker_inv w /\
  (forall b i p, slot_owner (g_resources w) b i = Some p -> is_Some (heap w !! p)) /\
  (forall p t, heap w !! p = Some t ->
     (resource_registered t = true <-> exists b i, slot_owner (g_resources w) b i = Some p)) /\
  active_count (g_resources w) = Z.of_nat (total_owned (g_resources w)).
Proof.
  intros Hrun.
  assert (Hinv : tracker_inv w).
  { revert Hrun. generalize inv_init. generalize world_init.
    induction cs as [|c cs IH]; intros w0 H0 H.
    - injection H as <-. exact H0.
    - cbn [run_apis] in H. unfold bind at 1 in H.
      destruct (run_api c w0) as [[[] w1]|] eqn:E; [|discriminate].
      exact (IH _ (inv_run_api _ _ _ H0 E) H). }
  split; [exact Hinv|]. pose proof Hinv as [Hwf Hown Hreg Hcnt].
  split; [|split; [|exact Hcnt]].
  - intros b i p Hs. apply slot_owner_Some in Hs. destruct Hs as [Hb Ho].
    destruct (Hown _ _ _ Hb Ho) as (t & Ht & _). eauto.
  - intros p t Ht. split.
    + intros Hr. destruct (Hreg _ _ Ht Hr) as (Hb & _ & Ho).
      exists (pio (t_pio t)), (Z.to_nat (sm (t_pio t))). apply slot_owner_Some. auto.
    + intros (b & i & Hs). apply slot_owner_Some in Hs. destruct Hs as [Hb Ho].
      destruct (Hown _ _ _ Hb Ho) as (t' & Ht' & Hr & _). congruence.
Qed.

Lemma api_keeps_tracker_witness :
  active_count (g_resources world_apis) = Z.of_nat (total_owned (g_resources world_apis)).
Proof.
  refine (proj2 (proj2 (proj2 (api_keeps_tracker demo_apis world_apis _)))).
  vm_compute. reflexivity.
Defined.
